(** * mcp-godocker: the plan execution engine of the JSON-RPC server

    A shallow embedding of the registry-based server (package [main] with
    [NewServer], [RegisterTool], [ExecutePlan] and [CallTool]), of the
    [pkg/docker] helpers its handlers delegate to, and of the [pkg/mcp]
    response types, followed by the properties of the plan engine.

    Go strings are byte sequences and are embedded as [string]; Go [int]
    and [time.Duration] values as [Z]; a Go [error] as [option string]
    (its [Error()] text, [None] for [nil]). *)

From Stdlib Require Import ZArith NArith Ascii String List Bool Lia DecimalString DecimalZ.
From stdpp Require Import base option strings gmap.

Set Warnings "-register-all".
Local Open Scope string_scope.
Local Open Scope Z_scope.
Local Open Scope list_scope.

(** Go's [error]: [None] is [nil], [Some msg] an error whose text is [msg]. *)
Definition error : Type := option string.

Definition byte (c : ascii) : N := N_of_ascii c.
Definition chr (n : N) : ascii := ascii_of_N n.
Definition dquote : ascii := chr 34.
Definition backslash : ascii := chr 92.
Definition str1 (c : ascii) : string := String c EmptyString.

(** ** unicode/utf8 and unicode/utf16 (Go standard library) *)
Module utf8.

(** The three bytes of U+FFFD, [unicode.ReplacementChar]. *)
Definition RuneError : string :=
  String (chr 239) (String (chr 191) (String (chr 189) EmptyString)).

Definition in_range (c : ascii) (lo hi : N) : bool :=
  ((lo <=? byte c) && (byte c <=? hi))%N.

Definition cont (c : ascii) : bool := in_range c 128 191.

(** Classification of a leading byte [>= 0x80]: the length of the
    sequence it opens and the range accepted for the second byte
    (the tables [first] and [acceptRanges] of unicode/utf8). *)
Inductive Lead : Type :=
| Lead2
| Lead3 (lo hi : N)
| Lead4 (lo hi : N)
| LeadBad.

Definition lead (c : ascii) : Lead :=
  let b := byte c in
  if ((194 <=? b) && (b <=? 223))%N then Lead2
  else if (b =? 224)%N then Lead3 160 191
  else if (b =? 237)%N then Lead3 128 159
  else if ((225 <=? b) && (b <=? 239))%N then Lead3 128 191
  else if (b =? 240)%N then Lead4 144 191
  else if (b =? 244)%N then Lead4 128 143
  else if ((241 <=? b) && (b <=? 243))%N then Lead4 128 191
  else LeadBad.

(** [utf8.EncodeRune]: surrogates and values above U+10FFFF are
    written as U+FFFD. *)
Definition EncodeRune (r : N) : string :=
  (if r <=? 127 then str1 (chr r)
   else if r <=? 2047 then
     String (chr (192 + r / 64)) (str1 (chr (128 + r mod 64)))
   else if (55296 <=? r) && (r <=? 57343) then RuneError
   else if r <=? 65535 then
     String (chr (224 + r / 4096))
       (String (chr (128 + (r / 64) mod 64)) (str1 (chr (128 + r mod 64))))
   else if r <=? 1114111 then
     String (chr (240 + r / 262144))
       (String (chr (128 + (r / 4096) mod 64))
          (String (chr (128 + (r / 64) mod 64)) (str1 (chr (128 + r mod 64)))))
   else RuneError)%N.

(** [utf16.IsSurrogate] and [utf16.DecodeRune]. *)
Definition IsSurrogate (r : N) : bool := ((55296 <=? r) && (r <? 57344))%N.

Definition DecodeSurrogates (r1 r2 : N) : option N :=
  (if (55296 <=? r1) && (r1 <? 56320) && (56320 <=? r2) && (r2 <? 57344)
   then Some ((r1 - 55296) * 1024 + (r2 - 56320) + 65536)
   else None)%N.

(** Ill-formed UTF-8 is replaced byte by byte with U+FFFD and
    well-formed sequences are kept, as the decoder of encoding/json does
    for the content of a string literal. *)
Fixpoint sanitize (s : string) : string :=
  match s with
  | EmptyString => EmptyString
  | String c0 r0 =>
      if (byte c0 <? 128)%N then String c0 (sanitize r0)
      else
        match lead c0, r0 with
        | Lead2, String c1 r1 =>
            if cont c1 then String c0 (String c1 (sanitize r1))
            else RuneError +:+ sanitize r0
        | Lead3 lo hi, String c1 (String c2 r2) =>
            if in_range c1 lo hi && cont c2
            then String c0 (String c1 (String c2 (sanitize r2)))
            else RuneError +:+ sanitize r0
        | Lead4 lo hi, String c1 (String c2 (String c3 r3)) =>
            if in_range c1 lo hi && cont c2 && cont c3
            then String c0 (String c1 (String c2 (String c3 (sanitize r3))))
            else RuneError +:+ sanitize r0
        | _, _ => RuneError +:+ sanitize r0
        end
  end.

End utf8.

(** ** Go dynamic values

    [interface{}] values as encoding/json produces them: [nil], [bool],
    [float64] (kept as the decimal literal that denotes it), [string],
    [[]interface{}] and [map[string]interface{}]. A map keeps the bindings
    in the order they were stored; a later binding of a key replaces an
    earlier one, so indexing takes the last. *)
Inductive Value : Type :=
| VNil
| VBool (b : bool)
| VNumber (lit : string)
| VString (s : string)
| VSlice (items : list Value)
| VMap (fields : list (string * Value)).

(** A variable of type [map[string]interface{}]: [None] is the nil map. *)
Definition Map : Type := option (list (string * Value)).

Fixpoint last_binding (k : string) (fields : list (string * Value))
    (found : option Value) : option Value :=
  match fields with
  | [] => found
  | (k', v) :: rest =>
      last_binding k rest (if String.eqb k' k then Some v else found)
  end.

(** [m[k]]: the zero value [nil] when [m] is nil or has no [k]. *)
Definition index (m : Map) (k : string) : Value :=
  match m with
  | None => VNil
  | Some fields => default VNil (last_binding k fields None)
  end.

(** [v.(string)] and [v.(map[string]interface{})] in their two-result
    form: the zero value and [false] when the dynamic type differs. *)
Definition assert_string (v : Value) : string * bool :=
  match v with
  | VString s => (s, true)
  | _ => (EmptyString, false)
  end.

Definition assert_map (v : Value) : Map * bool :=
  match v with
  | VMap fields => (Some fields, true)
  | _ => (None, false)
  end.

(** ** encoding/json (Go standard library)

    [Unmarshal] into a [[]map[string]interface{}] and [Marshal] of a
    [map[string]string], the two uses the server makes of the package.
    The grammar is that of RFC 8259 as the package's scanner accepts it. *)
Module json.

Inductive Token : Type :=
| TLBrace | TRBrace | TLBracket | TRBracket | TColon | TComma
| TString (s : string)
| TNumber (lit : string)
| TTrue | TFalse | TNull.

Definition is_space (c : ascii) : bool :=
  let b := byte c in ((b =? 32) || (b =? 9) || (b =? 10) || (b =? 13))%N.

Definition is_digit (c : ascii) : bool := utf8.in_range c 48 57.

Definition is_char (c : ascii) (n : N) : bool := (byte c =? n)%N.

(** Characters of number and literal lexemes. *)
Definition is_word (c : ascii) : bool :=
  is_digit c || utf8.in_range c 97 122 || utf8.in_range c 65 90
  || is_char c 45 || is_char c 43 || is_char c 46.

(** *** Numbers *)
Fixpoint skip_digits (s : string) : string :=
  match s with
  | String c r => if is_digit c then skip_digits r else s
  | EmptyString => s
  end.

Definition nonempty_digits (s : string) : bool :=
  match s with
  | String c _ => is_digit c
  | EmptyString => false
  end.

Definition is_empty (s : string) : bool :=
  match s with EmptyString => true | _ => false end.

Definition exp_ok (s : string) : bool :=
  match s with
  | EmptyString => true
  | String c r =>
      if is_char c 101 || is_char c 69 then
        let r' := match r with
                  | String sg r1 => if is_char sg 43 || is_char sg 45 then r1 else r
                  | EmptyString => r
                  end in
        nonempty_digits r' && is_empty (skip_digits r')
      else false
  end.

Definition frac_ok (s : string) : bool :=
  match s with
  | String c r =>
      if is_char c 46 then nonempty_digits r && exp_ok (skip_digits r)
      else exp_ok s
  | EmptyString => true
  end.

Definition int_ok (s : string) : bool :=
  match s with
  | String c r =>
      if is_char c 48 then frac_ok r
      else if is_digit c then frac_ok (skip_digits r)
      else false
  | EmptyString => false
  end.

Definition valid_number (s : string) : bool :=
  match s with
  | String c r => if is_char c 45 then int_ok r else int_ok s
  | EmptyString => false
  end.

Fixpoint span_digits (s : string) : string * string :=
  match s with
  | String c r =>
      if is_digit c then let '(d, rest) := span_digits r in (String c d, rest)
      else (EmptyString, s)
  | EmptyString => (EmptyString, EmptyString)
  end.

Fixpoint decimal (acc : Z) (s : string) : Z :=
  match s with
  | String c r => decimal (10 * acc + Z.of_N (byte c - 48)) r
  | EmptyString => acc
  end.

(** A valid literal as [m * 10 ^ e] (sign dropped), with the number of
    digits of [m]. *)
Definition number_parts (s : string) : Z * Z * Z :=
  let s0 := match s with
            | String c r => if is_char c 45 then r else s
            | EmptyString => s
            end in
  let '(ip, r1) := span_digits s0 in
  let '(fp, r2) := match r1 with
                   | String c r => if is_char c 46 then span_digits r else (EmptyString, r1)
                   | EmptyString => (EmptyString, r1)
                   end in
  let e := match r2 with
           | String _ (String sg r') =>
               if is_char sg 45 then - decimal 0 r'
               else if is_char sg 43 then decimal 0 r'
               else decimal 0 (String sg r')
           | _ => 0
           end in
  (decimal 0 (ip +:+ fp), e - Z.of_nat (String.length fp),
   Z.of_nat (String.length (ip +:+ fp))).

(** [strconv.ParseFloat(lit, 64)] fails with a range error when the
    literal rounds to infinity: at or beyond half an ulp above
    [math.MaxFloat64]. *)
Definition float64_limit : Z := 2 ^ 1024 - 2 ^ 970.

Definition overflows (lit : string) : bool :=
  let '(m, e, len) := number_parts lit in
  if m =? 0 then false
  else if len + e <=? 308 then false
  else if 0 <=? e then (310 <? e) || (float64_limit <=? m * 10 ^ e)
  else float64_limit * 10 ^ (- e) <=? m.

(** *** String literals *)
Definition hex_digit (c : ascii) : option N :=
  let b := byte c in
  (if utf8.in_range c 48 57 then Some (b - 48)
   else if utf8.in_range c 97 102 then Some (b - 87)
   else if utf8.in_range c 65 70 then Some (b - 55)
   else None)%N.

Definition hex4 (h0 h1 h2 h3 : ascii) : option N :=
  match hex_digit h0, hex_digit h1, hex_digit h2, hex_digit h3 with
  | Some a, Some b, Some c, Some d => Some (((a * 16 + b) * 16 + c) * 16 + d)%N
  | _, _, _, _ => None
  end.

(** The character a one-letter escape stands for. *)
Definition simple_escape (c : ascii) : option ascii :=
  if is_char c 34 || is_char c 92 || is_char c 47 then Some c
  else if is_char c 98 then Some (chr 8)
  else if is_char c 102 then Some (chr 12)
  else if is_char c 110 then Some (chr 10)
  else if is_char c 114 then Some (chr 13)
  else if is_char c 116 then Some (chr 9)
  else None.

(** The low half that may follow a high surrogate escape: the next six
    characters when they spell a [\uXXXX] escape. *)
Definition getu4 (s : string) : option (N * string) :=
  match s with
  | String b (String u (String h0 (String h1 (String h2 (String h3 r))))) =>
      if is_char b 92 && is_char u 117 then
        match hex4 h0 h1 h2 h3 with
        | Some rr => Some (rr, r)
        | None => None
        end
      else None
  | _ => None
  end.

(** [unquote] on the text between the quotes: the escapes are decoded,
    a lone surrogate becomes U+FFFD; [None] on an escape the scanner
    rejects. *)
Fixpoint unescape (s : string) : option string :=
  match s with
  | EmptyString => Some EmptyString
  | String c0 r0 =>
      if is_char c0 92 then
        match r0 with
        | String c1 r1 =>
            if is_char c1 117 then
              match r1 with
              | String h0 (String h1 (String h2 (String h3 r5))) =>
                  match hex4 h0 h1 h2 h3 with
                  | None => None
                  | Some rr =>
                      if utf8.IsSurrogate rr then
                        match r5 with
                        | String b (String u (String g0 (String g1 (String g2 (String g3 r11))))) =>
                            match (if is_char b 92 && is_char u 117
                                   then hex4 g0 g1 g2 g3 else None)
                                  ≫= utf8.DecodeSurrogates rr with
                            | Some dec => String.app (utf8.EncodeRune dec) <$> unescape r11
                            | None => String.app utf8.RuneError <$> unescape r5
                            end
                        | _ => String.app utf8.RuneError <$> unescape r5
                        end
                      else String.app (utf8.EncodeRune rr) <$> unescape r5
                  end
              | _ => None
              end
            else
              match simple_escape c1 with
              | Some c => String c <$> unescape r1
              | None => None
              end
        | EmptyString => None
        end
      else String c0 <$> unescape r0
  end.

Definition unquote (raw : string) : option string :=
  unescape (utf8.sanitize raw).

(** *** Lexer: one character at a time *)
Inductive LexState : Type :=
| LexIdle
| LexString (raw : string) (esc : bool)   (* [raw] is reversed *)
| LexWord (w : string).                   (* [w] is reversed *)

Definition word_token (w : string) : option Token :=
  if String.eqb w "true" then Some TTrue
  else if String.eqb w "false" then Some TFalse
  else if String.eqb w "null" then Some TNull
  else if valid_number w then Some (TNumber w)
  else None.

Definition idle_step (c : ascii) : option (LexState * list Token) :=
  if is_space c then Some (LexIdle, [])
  else if is_char c 123 then Some (LexIdle, [TLBrace])
  else if is_char c 125 then Some (LexIdle, [TRBrace])
  else if is_char c 91 then Some (LexIdle, [TLBracket])
  else if is_char c 93 then Some (LexIdle, [TRBracket])
  else if is_char c 58 then Some (LexIdle, [TColon])
  else if is_char c 44 then Some (LexIdle, [TComma])
  else if is_char c 34 then Some (LexString EmptyString false, [])
  else if is_word c then Some (LexWord (str1 c), [])
  else None.

Definition lex_step (st : LexState) (c : ascii) : option (LexState * list Token) :=
  match st with
  | LexIdle => idle_step c
  | LexString raw esc =>
      if (byte c <? 32)%N then None
      else if esc then Some (LexString (String c raw) false, [])
      else if is_char c 34 then
        s ← unquote (String.rev raw); Some (LexIdle, [TString s])
      else Some (LexString (String c raw) (is_char c 92), [])
  | LexWord w =>
      if is_word c then Some (LexWord (String c w), [])
      else
        t ← word_token (String.rev w);
        '(st', ts) ← idle_step c;
        Some (st', t :: ts)
  end.

Definition lex_end (st : LexState) : option (list Token) :=
  match st with
  | LexIdle => Some []
  | LexString _ _ => None
  | LexWord w => t ← word_token (String.rev w); Some [t]
  end.

Fixpoint lex (st : LexState) (s : string) : option (list Token) :=
  match s with
  | EmptyString => lex_end st
  | String c r =>
      '(st', ts) ← lex_step st c;
      rest ← lex st' r;
      Some (ts ++ rest)%list
  end.

(** *** Parser: one token at a time, with the stack of open containers *)

(** An enclosing container that waits for the value being read. *)
Inductive Frame : Type :=
| FArr (items : list Value)                      (* reversed *)
| FObj (fields : list (string * Value)) (key : string).

Inductive PState : Type :=
| PValue (stk : list Frame)
| PArrFirst (stk : list Frame)
| PArrNext (items : list Value) (stk : list Frame)
| PObjKey (fields : list (string * Value)) (first : bool) (stk : list Frame)
| PObjColon (fields : list (string * Value)) (key : string) (stk : list Frame)
| PObjNext (fields : list (string * Value)) (stk : list Frame)
| PDone (v : Value).

Definition deliver (v : Value) (stk : list Frame) : PState :=
  match stk with
  | [] => PDone v
  | FArr items :: stk' => PArrNext (v :: items) stk'
  | FObj fields key :: stk' => PObjNext ((key, v) :: fields) stk'
  end.

(** The scanner refuses more than [maxNestingDepth] open containers. *)
Definition maxNestingDepth : Z := 10000.

Definition open (st : PState) (stk : list Frame) : option PState :=
  if maxNestingDepth <? Z.of_nat (S (length stk)) then None else Some st.

(** A token that starts a value, read where the frames [stk] wait. *)
Definition value_step (stk : list Frame) (t : Token) : option PState :=
  match t with
  | TString s => Some (deliver (VString s) stk)
  | TNumber lit => Some (deliver (VNumber lit) stk)
  | TTrue => Some (deliver (VBool true) stk)
  | TFalse => Some (deliver (VBool false) stk)
  | TNull => Some (deliver VNil stk)
  | TLBracket => open (PArrFirst stk) stk
  | TLBrace => open (PObjKey [] true stk) stk
  | _ => None
  end.

Definition parse_step (st : PState) (t : Token) : option PState :=
  match st with
  | PValue stk => value_step stk t
  | PArrFirst stk =>
      match t with
      | TRBracket => Some (deliver (VSlice []) stk)
      | _ => value_step (FArr [] :: stk) t
      end
  | PArrNext items stk =>
      match t with
      | TComma => Some (PValue (FArr items :: stk))
      | TRBracket => Some (deliver (VSlice (rev items)) stk)
      | _ => None
      end
  | PObjKey fields first stk =>
      match t with
      | TString k => Some (PObjColon fields k stk)
      | TRBrace => if first then Some (deliver (VMap []) stk) else None
      | _ => None
      end
  | PObjColon fields key stk =>
      match t with
      | TColon => Some (PValue (FObj fields key :: stk))
      | _ => None
      end
  | PObjNext fields stk =>
      match t with
      | TComma => Some (PObjKey fields false stk)
      | TRBrace => Some (deliver (VMap (rev fields)) stk)
      | _ => None
      end
  | PDone _ => None
  end.

Fixpoint parse_tokens (st : PState) (ts : list Token) : option Value :=
  match ts with
  | [] => match st with PDone v => Some v | _ => None end
  | t :: rest => st' ← parse_step st t; parse_tokens st' rest
  end.

(** *** Unmarshal into [[]map[string]interface{}] *)

Inductive UnmarshalError : Type :=
| SyntaxError
| UnmarshalTypeError.

(** The text of the error. encoding/json words it after the offending
    byte or value; the two kinds are all the server distinguishes. *)
Definition Error (e : UnmarshalError) : string :=
  match e with
  | SyntaxError => "invalid character in JSON input"
  | UnmarshalTypeError => "json: cannot unmarshal value into Go value"
  end.

Definition range_error (t : Token) : bool :=
  match t with
  | TNumber lit => overflows lit
  | _ => false
  end.

(** One element of the slice: an object gives a map, [null] the nil
    map, anything else is a type error. *)
Definition decode_map (v : Value) : option Map :=
  match v with
  | VMap fields => Some (Some fields)
  | VNil => Some None
  | _ => None
  end.

Fixpoint decode_maps (items : list Value) : option (list Map) :=
  match items with
  | [] => Some []
  | v :: rest => m ← decode_map v; ms ← decode_maps rest; Some (m :: ms)
  end.

(** [var plan []map[string]interface{}; err := json.Unmarshal(data, &plan)]:
    the decoded plan, or the error. A top-level [null] leaves the slice
    nil (length 0). *)
Definition Unmarshal (data : string) : list Map + UnmarshalError :=
  match lex LexIdle data ≫= parse_tokens (PValue []) with
  | None => inr SyntaxError
  | Some v =>
      if existsb range_error (default [] (lex LexIdle data))
      then inr UnmarshalTypeError
      else
        match v with
        | VNil => inl []
        | VSlice items =>
            match decode_maps items with
            | Some plan => inl plan
            | None => inr UnmarshalTypeError
            end
        | _ => inr UnmarshalTypeError
        end
  end.

(** *** Marshal of a [map[string]string] *)

Definition hex : string := "0123456789abcdef".

Definition hex_char (n : N) : ascii :=
  default (chr 48) (String.get (N.to_nat n) hex).

Definition u00 (c : ascii) : string :=
  String backslash
    (String (chr 117) (String (chr 48) (String (chr 48)
       (String (hex_char (byte c / 16)) (str1 (hex_char (byte c mod 16))))))).

(** The escape of one ASCII byte inside a string literal, with HTML
    escaping on as [Marshal] has it. *)
Definition escape_ascii (c : ascii) : string :=
  if is_char c 34 || is_char c 92 then String backslash (str1 c)
  else if is_char c 8 then String backslash "b"
  else if is_char c 12 then String backslash "f"
  else if is_char c 10 then String backslash "n"
  else if is_char c 13 then String backslash "r"
  else if is_char c 9 then String backslash "t"
  else if (byte c <? 32)%N || is_char c 60 || is_char c 62 || is_char c 38
  then u00 c
  else str1 c.

Definition ufffd : string := String backslash "ufffd".

Fixpoint escape (s : string) : string :=
  match s with
  | EmptyString => EmptyString
  | String c0 r0 =>
      if (byte c0 <? 128)%N then escape_ascii c0 +:+ escape r0
      else
        match utf8.lead c0, r0 with
        | utf8.Lead2, String c1 r1 =>
            if utf8.cont c1 then String c0 (String c1 (escape r1))
            else ufffd +:+ escape r0
        | utf8.Lead3 lo hi, String c1 (String c2 r2) =>
            if utf8.in_range c1 lo hi && utf8.cont c2 then
              (* U+2028 and U+2029 are written as escapes *)
              if is_char c0 226 && is_char c1 128 && (is_char c2 168 || is_char c2 169)
              then String backslash ("u202" +:+ str1 (hex_char (byte c2 - 160)))
                     +:+ escape r2
              else String c0 (String c1 (String c2 (escape r2)))
            else ufffd +:+ escape r0
        | utf8.Lead4 lo hi, String c1 (String c2 (String c3 r3)) =>
            if utf8.in_range c1 lo hi && utf8.cont c2 && utf8.cont c3
            then String c0 (String c1 (String c2 (String c3 (escape r3))))
            else ufffd +:+ escape r0
        | _, _ => ufffd +:+ escape r0
        end
  end.

Definition quote (s : string) : string :=
  String dquote (escape s +:+ str1 dquote).

(** Map keys are written in sorted (bytewise) order. *)
Fixpoint insert_sorted (kv : string * string) (l : list (string * string))
    : list (string * string) :=
  match l with
  | [] => [kv]
  | kv' :: rest =>
      if String.leb kv.1 kv'.1 then kv :: l else kv' :: insert_sorted kv rest
  end.

Definition sort_keys (l : list (string * string)) : list (string * string) :=
  foldr insert_sorted [] l.

Fixpoint members (l : list (string * string)) : string :=
  match l with
  | [] => EmptyString
  | [(k, v)] => quote k +:+ ":" +:+ quote v
  | (k, v) :: rest => quote k +:+ ":" +:+ quote v +:+ "," +:+ members rest
  end.

(** [json.Marshal(m)] for a [map[string]string] given by its (distinct)
    bindings: the bytes, and an error that is always nil for this type. *)
Definition Marshal (m : list (string * string)) : string * error :=
  ("{" +:+ members (sort_keys m) +:+ "}", None).

End json.

(** ** time and context (Go standard library) *)
Module time.

(** [time.Duration] and [time.Time] in nanoseconds. *)
Definition Second : Z := 1000000000.
Definition Minute : Z := 60 * Second.

End time.

Module context.

(** A context, as far as the server uses one: its deadline, if any.
    Cancellation by the deferred [cancel()] happens when the function
    that made the context returns and is not observed by it. *)
Record Context : Type := { Deadline : option Z }.

Definition Background : Context := {| Deadline := None |}.

(** [context.WithDeadline(parent, d)]: when the parent's deadline is
    already earlier than [d] the result is equivalent to the parent;
    a derived context never outlives its parent. *)
Definition WithDeadline (parent : Context) (d : Z) : Context :=
  match Deadline parent with
  | Some cur => if cur <? d then parent else {| Deadline := Some d |}
  | None => {| Deadline := Some d |}
  end.

(** [context.WithTimeout(parent, timeout)] called at time [now] is
    [WithDeadline(parent, time.Now().Add(timeout))]. *)
Definition WithTimeout (parent : Context) (now timeout : Z) : Context :=
  WithDeadline parent (now + timeout).

End context.

(** ** The runtime collaborator: github.com/docker/docker/client

    The daemon is outside the program. A client is modelled by what it
    answers to a call and how long the call takes, both as functions of
    the current time and of every call made so far; the world records
    the clock and the calls in the order they were made. [ContainerInspect]
    is the client's query for a container's state (running or not); the
    earlier single-file servers used it, no function of pkg/docker does. *)
Module client.

Inductive Call : Type :=
| NetworkCreate (ctx : context.Context) (name : string)
| ContainerCreate (ctx : context.Context) (image name : string)
| VolumeCreate (ctx : context.Context) (name : string)
| ContainerStart (ctx : context.Context) (name : string)
| ContainerInspect (ctx : context.Context) (name : string)
| ImagePull (ctx : context.Context) (ref : string)
| PullOutputRead (ref : string).  (* [io.Copy(io.Discard, out)] on the pull's stream *)

Record World : Type := { now : Z; calls : list Call }.

Record Client : Type := {
  answer : World → Call → error;
  elapsed : World → Call → N
}.

(** Computations that act on the world. *)
Definition M (A : Type) : Type := World → A * World.

Definition ret {A} (a : A) : M A := fun w => (a, w).

Definition bind {A B} (m : M A) (k : A → M B) : M B :=
  fun w => let '(a, w') := m w in k a w'.

Definition clock : M Z := fun w => (now w, w).

Definition call (cli : Client) (c : Call) : M error :=
  fun w =>
    (answer cli w c,
     {| now := now w + Z.of_N (elapsed cli w c); calls := calls w ++ [c] |}).

End client.

Notation "'let*' x ':=' m 'in' k" := (client.bind m (fun x => k))
  (at level 10, x name, m at level 100, k at level 200).

Definition strempty (s : string) : bool :=
  match s with EmptyString => true | _ => false end.

(** ** pkg/docker *)
Module docker.
Import client.

(** CreateNetwork creates a Docker network with the given name. *)
Definition CreateNetwork (ctx : context.Context) (cli : Client) (name : string)
    : M error :=
  if strempty name then ret (Some "missing network name")
  else call cli (NetworkCreate ctx name).

(** CreateContainer creates a Docker container with the given name and image. *)
Definition CreateContainer (ctx : context.Context) (cli : Client)
    (name image : string) : M error :=
  if strempty name || strempty image
  then ret (Some "missing container name or image")
  else call cli (ContainerCreate ctx image name).

(** CreateVolume creates a Docker volume with the given name. *)
Definition CreateVolume (ctx : context.Context) (cli : Client) (name : string)
    : M error :=
  if strempty name then ret (Some "invalid or missing volume name")
  else call cli (VolumeCreate ctx name).

(** RunContainer starts the Docker container with the given name. *)
Definition RunContainer (ctx : context.Context) (cli : Client) (name : string)
    : M error :=
  if strempty name then ret (Some "invalid container name")
  else call cli (ContainerStart ctx name).

(** The first block of [PullImage]: the reference to pull, or the
    error it returns before any call. *)
Definition image_reference (parameters : Map) : string + string :=
  let '(image, ok) := assert_string (index parameters "image") in
  if negb ok || strempty image then
    let '(name, nameOk) := assert_string (index parameters "name") in
    let '(tag, tagOk) := assert_string (index parameters "tag") in
    if negb nameOk || strempty name
    then inr "missing image name for pull_image"
    else
      let tag := if negb tagOk || strempty tag then "latest" else tag in
      inl (name +:+ ":" +:+ tag)
  else inl image.

(** PullImage pulls a Docker image; when the image is not given directly
    it combines "name" and "tag" (tag defaulting to "latest"). *)
Definition PullImage (ctx : context.Context) (cli : Client) (parameters : Map)
    : M error :=
  match image_reference parameters with
  | inr e => ret (Some e)
  | inl image =>
      let* t := clock in
      let pullCtx := context.WithTimeout ctx t (2 * time.Minute) in
      let* err := call cli (ImagePull pullCtx image) in
      match err with
      | Some e => ret (Some e)
      | None => call cli (PullOutputRead image)
      end
  end.

End docker.

(** ** pkg/mcp: the JSON-RPC types *)
Module mcp.

Definition JSONRPCVersion : string := "2.0".

Record RPCError : Type := { Code : Z; Message : string }.

(** [Result] is a [json.RawMessage] and [Error] a pointer: [None] is nil. *)
Record RPCResponse : Type := {
  Version : string;
  Result : option string;
  Error : option RPCError;
  ID : option Z
}.

Definition NewError (code : Z) (msg : string) : RPCError :=
  {| Code := code; Message := msg |}.

Record ToolCallArgs : Type := { ToolName : string; Parameters : Map }.

End mcp.

(** ** package main: the server *)

(** The declared shape of a tool's parameters, a [map[string]interface{}]
    literal holding strings, string slices and nested maps. *)
Inductive Schema : Type :=
| SString (s : string)
| SStrings (l : list string)
| SObject (fields : list (string * Schema)).

(** ToolHandler defines the function signature for tool execution. Of the
    server it is handed, a handler reaches the Docker client only, which
    is what it receives here. *)
Definition ToolHandler : Type :=
  context.Context → client.Client → Map → client.M error.

(** RegisteredTool holds metadata and the handler for a tool. *)
Record RegisteredTool : Type := {
  Name : string;
  Description : string;
  InputSchema : list (string * Schema);
  Handler : ToolHandler
}.

(** Server encapsulates the Docker client and a registry of tools (the
    LLM client serves [CallLLM] only and is left out). *)
Record Server : Type := {
  dockerClient : client.Client;
  tools : gmap string RegisteredTool
}.

(** RegisterTool adds a new tool to the server's registry. *)
Definition RegisterTool (s : Server) (name description : string)
    (inputSchema : list (string * Schema)) (handler : ToolHandler) : Server :=
  {| dockerClient := dockerClient s;
     tools := <[name := {| Name := name; Description := description;
                           InputSchema := inputSchema; Handler := handler |}]>
                (tools s) |}.

Definition string_property (description : string) : Schema :=
  SObject [("type", SString "string"); ("description", SString description)].

Definition object_schema (properties : list (string * Schema))
    (required : list string) : list (string * Schema) :=
  [("type", SString "object"); ("properties", SObject properties);
   ("required", SStrings required)].

Definition create_network_handler : ToolHandler :=
  fun ctx cli params =>
    let '(name, _) := assert_string (index params "name") in
    docker.CreateNetwork ctx cli name.

Definition create_container_handler : ToolHandler :=
  fun ctx cli params =>
    let '(name, _) := assert_string (index params "name") in
    let '(image, _) := assert_string (index params "image") in
    if strempty name || strempty image
    then client.ret (Some "missing container name or image")
    else docker.CreateContainer ctx cli name image.

Definition create_volume_handler : ToolHandler :=
  fun ctx cli params =>
    let '(name, _) := assert_string (index params "name") in
    docker.CreateVolume ctx cli name.

Definition run_container_handler : ToolHandler :=
  fun ctx cli params =>
    let '(name, _) := assert_string (index params "name") in
    docker.RunContainer ctx cli name.

Definition pull_image_handler : ToolHandler :=
  fun ctx cli params => docker.PullImage ctx cli params.

(** NewServer creates and configures a new Server around the Docker
    client [dc] it obtained from the environment. *)
Definition NewServer (dc : client.Client) : Server :=
  let s := {| dockerClient := dc; tools := ∅ |} in
  let s := RegisterTool s "create_network" "Create a Docker network"
             (object_schema [("name", string_property "Name of the network")]
                ["name"])
             create_network_handler in
  let s := RegisterTool s "create_container" "Create a Docker container"
             (object_schema [("name", string_property "Name of the container");
                             ("image", string_property "Docker image to use")]
                ["name"; "image"])
             create_container_handler in
  let s := RegisterTool s "create_volume" "Create a Docker volume"
             (object_schema [("name", string_property "Name of the volume")]
                ["name"])
             create_volume_handler in
  let s := RegisterTool s "run_container" "Run (start) a Docker container"
             (object_schema [("name", string_property "Name of the container")]
                ["name"])
             run_container_handler in
  let s := RegisterTool s "pull_image" "Pull a Docker image"
             (object_schema
                [("image", string_property "Combined image name (e.g. mysql:latest)");
                 ("name", string_property "Image name");
                 ("tag", string_property "Image tag")]
                ["image"])
             pull_image_handler in
  s.

(** *** Execution state

    Besides the world the handlers act on, an execution keeps the journal
    of the handler calls it made: which tool, under which context, with
    which parameter bag. The journal is written by the engine at each
    [tool.Handler(ctx, s, parameters)] and cannot be touched by a handler. *)
Record Invocation : Type := {
  inv_tool : RegisteredTool;
  inv_ctx : context.Context;
  inv_params : Map
}.

Record Run : Type := { world : client.World; invoked : list Invocation }.

Definition invoke (s : Server) (tool : RegisteredTool) (ctx : context.Context)
    (parameters : Map) (r : Run) : error * Run :=
  let '(err, w) := Handler tool ctx (dockerClient s) parameters (world r) in
  (err,
   {| world := w;
      invoked := invoked r ++ [{| inv_tool := tool; inv_ctx := ctx;
                                  inv_params := parameters |}] |}).

Definition with_error (response : mcp.RPCResponse) (e : mcp.RPCError)
    : mcp.RPCResponse :=
  {| mcp.Version := mcp.Version response; mcp.Result := mcp.Result response;
     mcp.Error := Some e; mcp.ID := mcp.ID response |}.

Definition with_result (response : mcp.RPCResponse) (raw : string)
    : mcp.RPCResponse :=
  {| mcp.Version := mcp.Version response; mcp.Result := Some raw;
     mcp.Error := mcp.Error response; mcp.ID := mcp.ID response |}.

(** The tail shared by both methods: marshal the confirmation and store
    it, or the marshalling error, in the response. *)
Definition finish (response : mcp.RPCResponse) (message : string)
    : mcp.RPCResponse :=
  let '(result, err) := json.Marshal [("status", "success"); ("message", message)] in
  match err with
  | Some e =>
      with_error response (mcp.NewError (-32000) ("failed to marshal result: " +:+ e))
  | None => with_result response result
  end.

(** The [for _, action := range plan] loop of [ExecutePlan]: [Some reply]
    when an action makes the method return, [None] when the loop runs to
    its end. *)
Fixpoint actions (s : Server) (ctx : context.Context) (response : mcp.RPCResponse)
    (plan : list Map) (r : Run) : option mcp.RPCResponse * Run :=
  match plan with
  | [] => (None, r)
  | action :: rest =>
      let '(actionType, ok) := assert_string (index action "action") in
      if negb ok || strempty actionType then
        (Some (with_error response (mcp.NewError (-32602) "invalid action format")), r)
      else
        let '(parameters, _) := assert_map (index action "parameters") in
        match tools s !! actionType with
        | Some tool =>
            let '(err, r') := invoke s tool ctx parameters r in
            match err with
            | Some e =>
                (Some (with_error response
                         (mcp.NewError (-32000)
                            ("failed to execute tool " +:+ actionType +:+ ": " +:+ e))),
                 r')
            | None => actions s ctx response rest r'
            end
        | None =>
            (Some (with_error response
                     (mcp.NewError (-32601) ("unknown action: " +:+ actionType))),
             r)
        end
  end.

(** ExecutePlan processes and executes the plan using the registered tool
    handlers. [args] is the pointer it is given ([None] for nil); the
    result is the response stored in [*reply]. *)
Definition ExecutePlan (s : Server) (args : option string) (r : Run)
    : mcp.RPCResponse * Run :=
  let response := {| mcp.Version := mcp.JSONRPCVersion; mcp.Result := None;
                     mcp.Error := None; mcp.ID := None |} in
  match args with
  | None =>
      (with_error response (mcp.NewError (-32602) "ExecutePlan received empty plan"), r)
  | Some text =>
      if strempty text then
        (with_error response (mcp.NewError (-32602) "ExecutePlan received empty plan"), r)
      else
        match json.Unmarshal text with
        | inr err =>
            (with_error response
               (mcp.NewError (-32700)
                  ("failed to parse plan JSON: " +:+ json.Error err)), r)
        | inl plan =>
            if (length plan =? 0)%nat then
              (with_error response
                 (mcp.NewError (-32602) "received empty plan from LLM"), r)
            else
              let ctx := context.WithTimeout context.Background
                           (client.now (world r)) (30 * time.Second) in
              match actions s ctx response plan r with
              | (Some reply, r') => (reply, r')
              | (None, r') => (finish response "Plan executed successfully", r')
              end
        end
  end.

(** CallTool allows direct invocation of an individual tool. *)
Definition CallTool (s : Server) (args : mcp.ToolCallArgs) (r : Run)
    : mcp.RPCResponse * Run :=
  let response := {| mcp.Version := mcp.JSONRPCVersion; mcp.Result := None;
                     mcp.Error := None; mcp.ID := None |} in
  match tools s !! mcp.ToolName args with
  | None =>
      (with_error response
         (mcp.NewError (-32601) ("unknown tool: " +:+ mcp.ToolName args)), r)
  | Some tool =>
      let ctx := context.WithTimeout context.Background
                   (client.now (world r)) (30 * time.Second) in
      let '(err, r') := invoke s tool ctx (mcp.Parameters args) r in
      match err with
      | Some e =>
          (with_error response
             (mcp.NewError (-32000)
                ("failed to execute tool " +:+ mcp.ToolName args +:+ ": " +:+ e)),
           r')
      | None =>
          (finish response
             ("Tool " +:+ mcp.ToolName args +:+ " executed successfully"), r')
      end
  end.

(** ** Vocabulary of the properties *)

(** The response with only an error, and the one with only a result. *)
Definition error_reply (code : Z) (msg : string) : mcp.RPCResponse :=
  {| mcp.Version := mcp.JSONRPCVersion; mcp.Result := None;
     mcp.Error := Some (mcp.NewError code msg); mcp.ID := None |}.

Definition result_reply (raw : string) : mcp.RPCResponse :=
  {| mcp.Version := mcp.JSONRPCVersion; mcp.Result := Some raw;
     mcp.Error := None; mcp.ID := None |}.

(** JSON texts are written with ['] where the text has the double quote. *)
Fixpoint json_text (s : string) : string :=
  match s with
  | EmptyString => EmptyString
  | String c r => String (if json.is_char c 39 then dquote else c) (json_text r)
  end.

(** The confirmation [ExecutePlan] returns for a plan that ran to its end. *)
Definition plan_success_payload : string :=
  json_text "{'message':'Plan executed successfully','status':'success'}".

(** Exactly one of result and error is populated. *)
Definition exactly_one (reply : mcp.RPCResponse) : Prop :=
  (is_Some (mcp.Result reply) ∧ mcp.Error reply = None)
  ∨ (mcp.Result reply = None ∧ is_Some (mcp.Error reply)).

(** What is compared when two responses have the same code and shape:
    version, whether a result is present, the error code, the id. *)
Definition shape (reply : mcp.RPCResponse) : string * bool * option Z * option Z :=
  (mcp.Version reply, bool_decide (is_Some (mcp.Result reply)),
   mcp.Code <$> mcp.Error reply, mcp.ID reply).

(** The context every plan execution and tool call creates on entry. *)
Definition request_context (r : Run) : context.Context :=
  context.WithTimeout context.Background (client.now (world r)) (30 * time.Second).

(** An action the loop dispatches: its name is a non-empty string that the
    registry resolves. The result is the name, the tool and the bag the
    handler is given. *)
Definition resolve (s : Server) (action : Map)
    : option (string * RegisteredTool * Map) :=
  let '(actionType, ok) := assert_string (index action "action") in
  if negb ok || strempty actionType then None
  else
    tool ← tools s !! actionType;
    Some (actionType, tool, (assert_map (index action "parameters")).1).

Definition invocation (s : Server) (ctx : context.Context) (action : Map)
    : option Invocation :=
  '(_, tool, parameters) ← resolve s action;
  Some {| inv_tool := tool; inv_ctx := ctx; inv_params := parameters |}.

(** The handler calls of a run of actions, one per dispatched action, in
    order. *)
Definition journal (s : Server) (ctx : context.Context) (plan : list Map)
    : list Invocation :=
  omap (invocation s ctx) plan.

(** The world after the handlers of [plan] ran one after the other from
    [w], provided every action is dispatched and every handler succeeds. *)
Fixpoint succeed (s : Server) (ctx : context.Context) (plan : list Map)
    (w : client.World) : option client.World :=
  match plan with
  | [] => Some w
  | action :: rest =>
      match resolve s action with
      | Some (_, tool, parameters) =>
          match Handler tool ctx (dockerClient s) parameters w with
          | (None, w') => succeed s ctx rest w'
          | (Some _, _) => None
          end
      | None => None
      end
  end.

(** A value a handler accepts as a required string: a non-empty string. *)
Definition usable (v : Value) : bool :=
  match v with
  | VString s => negb (strempty s)
  | _ => false
  end.

(** The bag without the key [k]. *)
Definition delete_key (k : string) (m : Map) : Map :=
  filter (λ kv, kv.1 ≠ k) <$> m.

(** A client whose every call succeeds at once, and one that refuses
    every call. *)
Definition willing : client.Client :=
  {| client.answer := λ _ _, None; client.elapsed := λ _ _, 0%N |}.

Definition refusing : client.Client :=
  {| client.answer := λ _ _, Some "daemon unreachable";
     client.elapsed := λ _ _, 0%N |}.

Definition start_at (t : Z) : Run :=
  {| world := {| client.now := t; client.calls := [] |}; invoked := [] |}.

(** Calls that ask the collaborator for a container's state. *)
Definition queries_state (c : client.Call) : bool :=
  match c with
  | client.ContainerInspect _ _ => true
  | _ => false
  end.

(** *** Example plans *)

Definition act (name : string) (parameters : list (string * Value)) : Map :=
  Some [("action", VString name); ("parameters", VMap parameters)].

(** network, container, start: the three-step scenario. *)
Definition scenario_text : string :=
  json_text "[{'action':'create_network','parameters':{'name':'net1'}}, {'action':'create_container','parameters':{'name':'c1','image':'nginx:latest'}}, {'action':'run_container','parameters':{'name':'c1'}}]".

Definition scenario_plan : list Map :=
  [act "create_network" [("name", VString "net1")];
   act "create_container" [("name", VString "c1"); ("image", VString "nginx:latest")];
   act "run_container" [("name", VString "c1")]].

(** The same with the image of the container left out. *)
Definition no_image_text : string :=
  json_text "[{'action':'create_network','parameters':{'name':'net1'}}, {'action':'create_container','parameters':{'name':'c1'}}, {'action':'run_container','parameters':{'name':'c1'}}]".

Definition no_image_plan : list Map :=
  [act "create_network" [("name", VString "net1")];
   act "create_container" [("name", VString "c1")];
   act "run_container" [("name", VString "c1")]].

(** A pull of redis, and plans around an action that no tool answers to. *)
Definition pull_text : string :=
  json_text "[{'action':'pull_image','parameters':{'image':'redis:latest'}}]".

Definition unknown_text : string :=
  json_text "[{'action':'create_network','parameters':{'name':'net1'}}, {'action':'remove_container','parameters':{'name':'c1'}}]".

Definition unnamed_text : string := json_text "[{'action':''}]".

(** A volume created with a string where the bag should be, and with no
    bag at all. *)
Definition string_bag_text : string :=
  json_text "[{'action':'create_volume','parameters':'data'}]".

Definition no_bag_text : string := json_text "[{'action':'create_volume'}]".

(** A container whose volumes and networks hold no strings. *)
Definition odd_lists_bag : Map :=
  Some [("name", VString "c1"); ("image", VString "nginx:latest");
        ("volumes", VSlice [VNumber "1"]); ("networks", VSlice [VBool true])].

Definition pull_plan : list Map :=
  [act "pull_image" [("image", VString "redis:latest")]].

(** ** The rest of the code *)

(** *** pkg/mcp: the text of an error *)

(** [%d] of an [int]: its decimal digits, with a minus sign when negative. *)
Definition itoa (n : Z) : string :=
  DecimalString.NilEmpty.string_of_int (Z.to_int n).

(** String returns the string representation of the RPCError. *)
Definition RPCError_String (e : mcp.RPCError) : string :=
  "RPC Error [Code: " +:+ itoa (mcp.Code e) +:+ "]: " +:+ mcp.Message e.

(** *** The journal and the registry *)

(** The world after the journalled handler calls are made again, in
    order, from [w]. *)
Definition replay (s : Server) (calls : list Invocation) (w : client.World)
    : client.World :=
  foldl (λ w i, (Handler (inv_tool i) (inv_ctx i) (dockerClient s)
                   (inv_params i) w).2) w calls.

(** Every entry of the registry sits under its own name. *)
Definition well_keyed (s : Server) : Prop :=
  ∀ k t, tools s !! k = Some t → Name t = k.

(** The context a call to the collaborator was made under. *)
Definition call_context (c : client.Call) : option context.Context :=
  match c with
  | client.NetworkCreate ctx _ | client.ContainerCreate ctx _ _
  | client.VolumeCreate ctx _ | client.ContainerStart ctx _
  | client.ContainerInspect ctx _ | client.ImagePull ctx _ => Some ctx
  | client.PullOutputRead _ => None
  end.

(** A call made under the context [ctx], or under none. *)
Definition under (ctx : context.Context) (c : client.Call) : Prop :=
  ∀ ctx', call_context c = Some ctx' → ctx' = ctx.

(** [v.([]interface{})] in its two-result form. *)
Definition assert_slice (v : Value) : list Value * bool :=
  match v with
  | VSlice items => (items, true)
  | _ => ([], false)
  end.

(** *** src/server/server.go: the server before the tool registry

    [ExecutePlan] dispatches on the action name with a [switch], answers
    with a plain string and reports failures as the error of the RPC
    method. The helpers below it read a container's details from the
    action itself; they are the ones of the first single-file server. *)
Module server_go.
Import client.

Definition success_reply : string :=
  json_text "{'status': 'success', 'message': 'Plan executed successfully'}".

(** The [for _, action := range plan] loop: the error that ends it, or
    [None] when it runs through. *)
Fixpoint actions (dc : Client) (ctx : context.Context) (plan : list Map)
    : M error :=
  match plan with
  | [] => ret None
  | action :: rest =>
      let '(actionType, ok) := assert_string (index action "action") in
      if negb ok || strempty actionType then ret (Some "invalid action format")
      else
        let '(parameters, _) := assert_map (index action "parameters") in
        if String.eqb actionType "create_network" then
          let '(name, _) := assert_string (index parameters "name") in
          if strempty name then ret (Some "missing network name")
          else
            let* err := call dc (NetworkCreate ctx name) in
            match err with
            | Some e => ret (Some ("failed to create network " +:+ name +:+ ": " +:+ e))
            | None => actions dc ctx rest
            end
        else if String.eqb actionType "create_container" then
          let '(name, _) := assert_string (index parameters "name") in
          let '(image, _) := assert_string (index parameters "image") in
          if strempty name || strempty image
          then ret (Some "missing container name or image")
          else
            let* err := call dc (ContainerCreate ctx image name) in
            match err with
            | Some e => ret (Some ("failed to create container " +:+ name +:+ ": " +:+ e))
            | None => actions dc ctx rest
            end
        else if String.eqb actionType "create_volume" then
          let '(name, _) := assert_string (index parameters "name") in
          if strempty name
          then ret (Some "invalid or missing name for create_volume action")
          else
            let* err := call dc (VolumeCreate ctx name) in
            match err with
            | Some e => ret (Some ("failed to create volume " +:+ name +:+ ": " +:+ e))
            | None => actions dc ctx rest
            end
        else if String.eqb actionType "run_container" then
          let '(name, _) := assert_string (index parameters "name") in
          if strempty name then ret (Some "invalid name for run_container")
          else
            let* err := call dc (ContainerStart ctx name) in
            match err with
            | Some e => ret (Some ("failed to start container " +:+ name +:+ ": " +:+ e))
            | None => actions dc ctx rest
            end
        else ret (Some ("unknown action: " +:+ actionType))
  end.

(** ExecutePlan processes and executes the plan with proper Docker SDK
    calls: the string stored in [*reply], or the error returned. *)
Definition ExecutePlan (dc : Client) (args : option string) : M (string + string) :=
  match args with
  | None => ret (inr "ExecutePlan received empty plan")
  | Some text =>
      if strempty text then ret (inr "ExecutePlan received empty plan")
      else
        match json.Unmarshal text with
        | inr err => ret (inr ("failed to parse plan JSON: " +:+ json.Error err))
        | inl plan =>
            if (length plan =? 0)%nat then ret (inr "received empty plan from LLM")
            else
              let* t := clock in
              let ctx := context.WithTimeout context.Background t (30 * time.Second) in
              let* err := actions dc ctx plan in
              match err with
              | Some e => ret (inr e)
              | None => ret (inl success_reply)
              end
        end
  end.

Section helpers.

(** [fmt]'s [%v] of a dynamic value. *)
Variable format : Value → string.

Definition parseContainerDetails (action : Map) : string * string + string :=
  let '(name, ok) := assert_string (index action "name") in
  if negb ok || strempty name then inr "invalid or missing container name"
  else
    let '(image, ok) := assert_string (index action "image") in
    if negb ok || strempty image then inr "invalid or missing container image"
    else inl (name, image).

(** The loop of [parseVolumes] over the elements left, [volumes] being
    the strings appended so far. *)
Fixpoint volumes_loop (volumeMappings : list Value) (volumes : list string)
    : list string + string :=
  match volumeMappings with
  | [] => inl volumes
  | vol :: rest =>
      let '(volStr, valid) := assert_string vol in
      if negb valid then inr ("invalid volume format: " +:+ format vol)
      else volumes_loop rest (volumes ++ [volStr])
  end.

Definition parseVolumes (action : Map) : list string + string :=
  let '(volumeMappings, ok) := assert_slice (index action "volumes") in
  if ok then volumes_loop volumeMappings [] else inl [].

Fixpoint networks_loop (networkNames : list Value) (networks : list string)
    : list string + string :=
  match networkNames with
  | [] => inl networks
  | nw :: rest =>
      let '(netStr, valid) := assert_string nw in
      if negb valid then inr ("invalid network format: " +:+ format nw)
      else networks_loop rest (networks ++ [netStr])
  end.

Definition parseNetworks (action : Map) : list string + string :=
  let '(networkNames, ok) := assert_slice (index action "networks") in
  if ok then networks_loop networkNames [] else inl [].

End helpers.

End server_go.

(** *** The single-file registry server (its handlers are named functions
    that call the Docker client themselves) *)
Module standalone.
Import client.

Definition createNetworkHandler : ToolHandler :=
  fun ctx cli parameters =>
    let '(name, _) := assert_string (index parameters "name") in
    if strempty name then ret (Some "missing network name")
    else call cli (NetworkCreate ctx name).

Definition createContainerHandler : ToolHandler :=
  fun ctx cli parameters =>
    let '(name, _) := assert_string (index parameters "name") in
    let '(image, _) := assert_string (index parameters "image") in
    if strempty name || strempty image
    then ret (Some "missing container name or image")
    else call cli (ContainerCreate ctx image name).

Definition createVolumeHandler : ToolHandler :=
  fun ctx cli parameters =>
    let '(name, _) := assert_string (index parameters "name") in
    if strempty name
    then ret (Some "invalid or missing name for create_volume action")
    else call cli (VolumeCreate ctx name).

Definition runContainerHandler : ToolHandler :=
  fun ctx cli parameters =>
    let '(name, _) := assert_string (index parameters "name") in
    if strempty name then ret (Some "invalid name for run_container")
    else call cli (ContainerStart ctx name).

Definition pullImageHandler : ToolHandler :=
  fun ctx cli parameters =>
    let '(image, ok) := assert_string (index parameters "image") in
    match (if negb ok || strempty image then
             let '(name, nameOk) := assert_string (index parameters "name") in
             let '(tag, tagOk) := assert_string (index parameters "tag") in
             if negb nameOk || strempty name
             then inr "missing image name for pull_image"
             else
               let tag := if negb tagOk || strempty tag then "latest" else tag in
               inl (name +:+ ":" +:+ tag)
           else inl image) with
    | inr e => ret (Some e)
    | inl image =>
        let* t := clock in
        let pullCtx := context.WithTimeout ctx t (2 * time.Minute) in
        let* err := call cli (ImagePull pullCtx image) in
        match err with
        | Some e => ret (Some e)
        | None => call cli (PullOutputRead image)
        end
    end.

End standalone.

(** A stand-in for the formatter in examples: exact on strings, booleans
    and nil. *)
Definition sample_format (v : Value) : string :=
  match v with
  | VString s => s
  | VBool true => "true"
  | VBool false => "false"
  | VNil => "<nil>"
  | _ => "?"
  end.

Definition has_name (name : string) (action : Map) : Prop :=
  index action "action" = VString name.

(** Whether the character [c] occurs in [s]. *)
Fixpoint contains (c : ascii) (s : string) : bool :=
  match s with
  | EmptyString => false
  | String c' r => Ascii.eqb c' c || contains c r
  end.

(** A collaborator that takes 45 seconds over every call. *)
Definition slow : client.Client :=
  {| client.answer := λ _ _, None; client.elapsed := λ _ _, 45000000000%N |}.

Definition network_then_pull_text : string :=
  json_text "[{'action':'create_network','parameters':{'name':'net1'}}, {'action':'pull_image','parameters':{'name':'redis'}}]".

(** A plan that never asks for the pull of an image. *)
Definition without_pull (plan : list Map) : Prop :=
  Forall (λ action, index action "action" ≠ VString "pull_image") plan.

(** [json.Valid]: the text is syntactically valid JSON, whatever value it
    denotes. *)
Definition valid_json (text : string) : bool :=
  match json.lex json.LexIdle text ≫= json.parse_tokens (json.PValue []) with
  | Some _ => true
  | None => false
  end.

(** ** Properties *)

(** *** The registry *)

Lemma RegisterTool_lookup (s : Server) name description schema handler :
  tools (RegisterTool s name description schema handler) !! name
  = Some {| Name := name; Description := description;
            InputSchema := schema; Handler := handler |}.
Proof. unfold RegisterTool; simpl. apply lookup_insert_eq. Qed.

Lemma RegisterTool_lookup_ne (s : Server) name description schema handler other :
  other ≠ name →
  tools (RegisterTool s name description schema handler) !! other
  = tools s !! other.
Proof. intros Hne. unfold RegisterTool; simpl. by apply lookup_insert_ne. Qed.

(** C6. Registering a tool under a name already in the registry replaces
    the entry: after two registrations under one name the lookup of that
    name gives exactly the second handler, description and schema, every
    other entry is what it was before, and the registry is the one the
    second registration alone would have built. *)
Theorem RegisterTool_last_wins (s : Server) (name d1 d2 : string)
    (sch1 sch2 : list (string * Schema)) (h1 h2 : ToolHandler) :
  let s' := RegisterTool (RegisterTool s name d1 sch1 h1) name d2 sch2 h2 in
  tools s' !! name
  = Some {| Name := name; Description := d2; InputSchema := sch2; Handler := h2 |}
  ∧ (∀ other, other ≠ name → tools s' !! other = tools s !! other)
  ∧ s' = RegisterTool s name d2 sch2 h2.
Proof.
  intros s'. subst s'. split; [apply RegisterTool_lookup|]. split.
  - intros other Hne. by rewrite !RegisterTool_lookup_ne.
  - unfold RegisterTool; simpl. f_equal. apply insert_insert_eq.
Qed.

Lemma RegisterTool_last_wins_witness :
  let s' := RegisterTool
              (RegisterTool (NewServer willing) "run_container" "first" []
                 run_container_handler)
              "run_container" "second" [] create_volume_handler in
  tools s' !! "run_container"
  = Some {| Name := "run_container"; Description := "second"; InputSchema := [];
            Handler := create_volume_handler |}
  ∧ tools s' !! "pull_image" = tools (NewServer willing) !! "pull_image".
Proof.
  intros s'.
  destruct (RegisterTool_last_wins (NewServer willing) "run_container" "first"
              "second" [] [] run_container_handler create_volume_handler)
    as (Hsecond & Hothers & _).
  split; [exact Hsecond|]. apply Hothers. discriminate.
Defined.

(** *** Responses *)

Lemma with_error_reply (code : Z) (msg : string) :
  with_error {| mcp.Version := mcp.JSONRPCVersion; mcp.Result := None;
                mcp.Error := None; mcp.ID := None |} (mcp.NewError code msg)
  = error_reply code msg.
Proof. reflexivity. Qed.

Lemma finish_plan :
  finish {| mcp.Version := mcp.JSONRPCVersion; mcp.Result := None;
            mcp.Error := None; mcp.ID := None |} "Plan executed successfully"
  = result_reply plan_success_payload.
Proof. reflexivity. Qed.

Lemma finish_exactly_one (message : string) :
  exactly_one (finish {| mcp.Version := mcp.JSONRPCVersion; mcp.Result := None;
                         mcp.Error := None; mcp.ID := None |} message).
Proof. left. unfold finish; simpl. split; [by eexists | done]. Qed.

Lemma error_reply_exactly_one (code : Z) (msg : string) :
  exactly_one (error_reply code msg).
Proof. right. split; [done | by eexists]. Qed.

(** Whatever makes the loop return is an error reply. *)
Lemma actions_reply (s : Server) ctx (plan : list Map) r reply r' :
  actions s ctx {| mcp.Version := mcp.JSONRPCVersion; mcp.Result := None;
                   mcp.Error := None; mcp.ID := None |} plan r = (Some reply, r') →
  ∃ code msg, reply = error_reply code msg.
Proof.
  revert r. induction plan as [|action rest IH]; intros r; simpl; [done|].
  destruct (assert_string (index action "action")) as [actionType ok].
  destruct (negb ok || strempty actionType).
  { intros [= <- <-]. by eexists _, _. }
  destruct (assert_map (index action "parameters")) as [parameters ?].
  destruct (tools s !! actionType) as [tool|].
  - destruct (invoke s tool ctx parameters r) as [[e|] r1].
    + intros [= <- <-]. by eexists _, _.
    + apply IH.
  - intros [= <- <-]. by eexists _, _.
Qed.

(** C9. Every response of [ExecutePlan] and of [CallTool] has exactly one
    of result and error populated: the error alone on every error path,
    the result alone on the success path, never both and never neither. *)
Theorem replies_populate_exactly_one (s : Server) (r : Run) :
  (∀ args, exactly_one (ExecutePlan s args r).1)
  ∧ (∀ args, exactly_one (CallTool s args r).1).
Proof.
  split; intros args.
  - unfold ExecutePlan. destruct args as [text|]; [|apply error_reply_exactly_one].
    destruct (strempty text); [apply error_reply_exactly_one|].
    destruct (json.Unmarshal text) as [plan|err]; [|apply error_reply_exactly_one].
    destruct (length plan =? 0)%nat; [apply error_reply_exactly_one|].
    destruct (actions _ _ _ plan r) as [[reply|] r'] eqn:Hloop; simpl.
    + apply actions_reply in Hloop as (code & msg & ->).
      apply error_reply_exactly_one.
    + apply finish_exactly_one.
  - unfold CallTool. destruct (tools s !! mcp.ToolName args) as [tool|];
      [|apply error_reply_exactly_one].
    destruct (invoke s tool _ (mcp.Parameters args) r) as [[e|] r1]; simpl.
    + apply error_reply_exactly_one.
    + apply finish_exactly_one.
Qed.

(** Text that is not valid JSON is refused by the decoder with a syntax
    error. *)
Lemma Unmarshal_invalid (text : string) :
  valid_json text = false → json.Unmarshal text = inr json.SyntaxError.
Proof.
  unfold valid_json, json.Unmarshal.
  by destruct (json.lex json.LexIdle text ≫= json.parse_tokens (json.PValue [])).
Qed.

(** C2. Bad input is classified before any handler runs: the empty string
    and the empty JSON array give error code -32602, and every non-empty
    text that is not syntactically valid JSON, "{not json" among them,
    gives -32700. In all these cases the execution state is left as it
    was: no handler call is added to the journal and no call reaches the
    collaborator. *)
Theorem ExecutePlan_bad_input (s : Server) (r : Run) :
  ExecutePlan s (Some EmptyString) r
  = (error_reply (-32602) "ExecutePlan received empty plan", r)
  ∧ ExecutePlan s (Some "[]") r
    = (error_reply (-32602) "received empty plan from LLM", r)
  ∧ (∀ text, strempty text = false → valid_json text = false →
       ∃ msg, ExecutePlan s (Some text) r = (error_reply (-32700) msg, r))
  ∧ valid_json "{not json" = false
  ∧ (∃ msg, ExecutePlan s (Some "{not json") r = (error_reply (-32700) msg, r)).
Proof.
  split; [reflexivity|]. split; [reflexivity|]. split.
  - intros text Hempty Hinvalid. unfold ExecutePlan.
    rewrite Hempty, (Unmarshal_invalid _ Hinvalid). by eexists.
  - split; [reflexivity|]. eexists. reflexivity.
Qed.

Lemma ExecutePlan_bad_input_witness :
  (∃ msg, ExecutePlan (NewServer willing) (Some "{not json") (start_at 0)
          = (error_reply (-32700) msg, start_at 0))
  ∧ (∃ msg, ExecutePlan (NewServer willing)
              (Some (json_text "[{'action':'create_network','parameters':{'name':'net1'}},]"))
              (start_at 0)
            = (error_reply (-32700) msg, start_at 0)).
Proof.
  destruct (ExecutePlan_bad_input (NewServer willing) (start_at 0))
    as (_ & _ & Hany & _ & _).
  split; apply Hany; reflexivity.
Defined.

(** *** The action loop *)

Lemma resolve_inv (s : Server) (action : Map) name tool parameters :
  resolve s action = Some (name, tool, parameters) →
  assert_string (index action "action") = (name, true)
  ∧ strempty name = false
  ∧ tools s !! name = Some tool
  ∧ parameters = (assert_map (index action "parameters")).1.
Proof.
  unfold resolve.
  destruct (assert_string (index action "action")) as [actionType ok].
  destruct ok; simpl; [|done].
  destruct (strempty actionType) eqn:Hempty; [done|].
  destruct (tools s !! actionType) as [t|] eqn:Htool; simpl; [|done].
  by intros [= <- <- <-].
Qed.

(** One turn of the loop on a dispatched action: the handler runs once on
    the current world, the call is journalled, and its error decides
    between returning and going on. *)
Lemma actions_dispatch (s : Server) ctx response action rest r name tool parameters :
  resolve s action = Some (name, tool, parameters) →
  actions s ctx response (action :: rest) r
  = let r' w := {| world := w;
                   invoked := invoked r ++ [{| inv_tool := tool; inv_ctx := ctx;
                                               inv_params := parameters |}] |} in
    match Handler tool ctx (dockerClient s) parameters (world r) with
    | (Some e, w) =>
        (Some (with_error response
                 (mcp.NewError (-32000)
                    ("failed to execute tool " +:+ name +:+ ": " +:+ e))), r' w)
    | (None, w) => actions s ctx response rest (r' w)
    end.
Proof.
  intros (Hname & Hempty & Htool & ->)%resolve_inv. simpl.
  rewrite Hname, Hempty, Htool. simpl.
  destruct (assert_map (index action "parameters")) as [parameters ok]. simpl.
  unfold invoke.
  by destruct (Handler tool ctx (dockerClient s) parameters (world r)) as [[e|] w].
Qed.

Lemma journal_cons (s : Server) ctx action rest name tool parameters :
  resolve s action = Some (name, tool, parameters) →
  journal s ctx (action :: rest)
  = {| inv_tool := tool; inv_ctx := ctx; inv_params := parameters |}
      :: journal s ctx rest.
Proof. intros H. unfold journal; simpl. unfold invocation at 1. by rewrite H. Qed.

(** A prefix whose handlers all succeed is run through in order, each
    handler once, and the loop goes on from the world they leave. *)
Lemma actions_succeed (s : Server) ctx response (pre rest : list Map) r w1 :
  succeed s ctx pre (world r) = Some w1 →
  actions s ctx response (pre ++ rest) r
  = actions s ctx response rest
      {| world := w1; invoked := invoked r ++ journal s ctx pre |}.
Proof.
  revert r. induction pre as [|action pre IH]; intros r.
  - intros [= <-]. unfold journal; simpl. rewrite app_nil_r. by destruct r.
  - cbn [succeed].
    destruct (resolve s action) as [[[name tool] parameters]|] eqn:Hres; [|done].
    destruct (Handler tool ctx (dockerClient s) parameters (world r))
      as [[e|] w] eqn:Hrun; [done|].
    intros Hpre. rewrite <- app_comm_cons.
    rewrite (actions_dispatch _ _ _ _ _ _ _ _ _ Hres), Hrun. cbn zeta.
    rewrite IH by done. cbn [world invoked].
    by rewrite (journal_cons _ _ _ _ _ _ _ Hres), <- app_assoc.
Qed.

Lemma journal_succeed_length (s : Server) ctx (plan : list Map) w w1 :
  succeed s ctx plan w = Some w1 → length (journal s ctx plan) = length plan.
Proof.
  revert w. induction plan as [|action plan IH]; intros w; [done|].
  cbn [succeed].
  destruct (resolve s action) as [[[name tool] parameters]|] eqn:Hres; [|done].
  destruct (Handler tool ctx (dockerClient s) parameters w) as [[e|] w']; [done|].
  intros H. rewrite (journal_cons _ _ _ _ _ _ _ Hres). simpl. f_equal. eauto.
Qed.

Lemma journal_app (s : Server) ctx (l1 l2 : list Map) :
  journal s ctx (l1 ++ l2) = journal s ctx l1 ++ journal s ctx l2.
Proof. unfold journal. apply omap_app. Qed.

Lemma Unmarshal_not_empty (text : string) (plan : list Map) :
  json.Unmarshal text = inl plan → strempty text = false.
Proof. by destruct text. Qed.

(** [ExecutePlan] on a text that decodes to a non-empty plan is the loop
    under the request's context, followed by the confirmation. *)
Lemma ExecutePlan_decoded (s : Server) (text : string) (plan : list Map) (r : Run) :
  json.Unmarshal text = inl plan → plan ≠ [] →
  ExecutePlan s (Some text) r
  = match actions s (request_context r)
            {| mcp.Version := mcp.JSONRPCVersion; mcp.Result := None;
               mcp.Error := None; mcp.ID := None |} plan r with
    | (Some reply, r') => (reply, r')
    | (None, r') => (result_reply plan_success_payload, r')
    end.
Proof.
  intros Hplan Hne. unfold ExecutePlan.
  rewrite (Unmarshal_not_empty _ _ Hplan), Hplan.
  destruct plan; [done|]. reflexivity.
Qed.

(** C1. A plan that decodes to a non-empty sequence of actions is run
    strictly in order, each handler on the world the previous one left.
    If every action is dispatched and every handler succeeds, the response
    carries the fixed confirmation and no error, and the journal has
    gained exactly the calls of actions 1..N in the submitted order. If
    the actions before action k succeed and the handler of action k
    fails, the response carries error -32000 whose message names the tool
    of action k and the handler's error, and the journal has gained
    exactly the calls of actions 1..k: one each, in order, and none for
    the actions after k. *)
Theorem ExecutePlan_in_order_fail_fast (s : Server) (text : string)
    (plan : list Map) (r : Run) :
  json.Unmarshal text = inl plan → plan ≠ [] →
  let ctx := request_context r in
  (∀ w', succeed s ctx plan (world r) = Some w' →
     ExecutePlan s (Some text) r
     = (result_reply plan_success_payload,
        {| world := w'; invoked := invoked r ++ journal s ctx plan |})
     ∧ length (journal s ctx plan) = length plan)
  ∧ (∀ pre action post name tool parameters w1 e w2,
       plan = pre ++ action :: post →
       succeed s ctx pre (world r) = Some w1 →
       resolve s action = Some (name, tool, parameters) →
       Handler tool ctx (dockerClient s) parameters w1 = (Some e, w2) →
       ExecutePlan s (Some text) r
       = (error_reply (-32000) ("failed to execute tool " +:+ name +:+ ": " +:+ e),
          {| world := w2;
             invoked := invoked r ++ journal s ctx (pre ++ [action]) |})
       ∧ length (journal s ctx (pre ++ [action])) = S (length pre)).
Proof.
  intros Hplan Hne ctx. rewrite (ExecutePlan_decoded _ _ _ _ Hplan Hne). split.
  - intros w' Hall. split; [|by eapply journal_succeed_length].
    rewrite <- (app_nil_r plan) at 1.
    by rewrite (actions_succeed _ _ _ _ _ _ _ Hall).
  - intros pre action post name tool parameters w1 e w2 -> Hpre Hres Hfail. split.
    + rewrite (actions_succeed _ _ _ _ _ _ _ Hpre).
      rewrite (actions_dispatch _ _ _ _ _ _ _ _ _ Hres). cbn [world invoked].
      rewrite Hfail. cbn zeta.
      rewrite journal_app, (journal_cons _ _ _ _ _ _ _ Hres), app_assoc.
      reflexivity.
    + rewrite journal_app, length_app, (journal_succeed_length _ _ _ _ _ Hpre).
      rewrite (journal_cons _ _ _ _ _ _ _ Hres). simpl. lia.
Qed.

Lemma ExecutePlan_in_order_fail_fast_witness :
  let s := NewServer willing in
  let r := start_at 0 in
  let ctx := request_context r in
  (ExecutePlan s (Some scenario_text) r
   = (result_reply plan_success_payload,
      {| world := {| client.now := 0;
                     client.calls := [client.NetworkCreate ctx "net1";
                                      client.ContainerCreate ctx "nginx:latest" "c1";
                                      client.ContainerStart ctx "c1"] |};
         invoked := invoked r ++ journal s ctx scenario_plan |})
   ∧ length (journal s ctx scenario_plan) = length scenario_plan)
  ∧ (ExecutePlan s (Some no_image_text) r
     = (error_reply (-32000)
          ("failed to execute tool " +:+ "create_container" +:+ ": "
           +:+ "missing container name or image"),
        {| world := {| client.now := 0;
                       client.calls := [client.NetworkCreate ctx "net1"] |};
           invoked := invoked r ++ journal s ctx (firstn 1 no_image_plan
                                                    ++ [act "create_container" [("name", VString "c1")]]) |})
     ∧ length (journal s ctx (firstn 1 no_image_plan
                               ++ [act "create_container" [("name", VString "c1")]]))
       = S (length (firstn 1 no_image_plan))).
Proof.
  intros s r ctx. split.
  - assert (Hplan : json.Unmarshal scenario_text = inl scenario_plan)
      by (vm_compute; reflexivity).
    assert (Hne : scenario_plan ≠ []) by discriminate.
    apply (proj1 (ExecutePlan_in_order_fail_fast s scenario_text scenario_plan r
                    Hplan Hne)).
    vm_compute; reflexivity.
  - assert (Hplan : json.Unmarshal no_image_text = inl no_image_plan)
      by (vm_compute; reflexivity).
    assert (Hne : no_image_plan ≠ []) by discriminate.
    eapply (proj2 (ExecutePlan_in_order_fail_fast s no_image_text no_image_plan r
                    Hplan Hne)
             (firstn 1 no_image_plan) _ (skipn 2 no_image_plan)
             "create_container" {| Name := "create_container";
                 Description := "Create a Docker container";
                 InputSchema := object_schema [("name", string_property "Name of the container");
                             ("image", string_property "Docker image to use")]
                ["name"; "image"]; Handler := create_container_handler |}
             (Some [("name", VString "c1")])).
    + reflexivity.
    + vm_compute; reflexivity.
    + vm_compute; reflexivity.
    + vm_compute; reflexivity.
Defined.

(** *** Unknown tools *)

Lemma actions_unknown (s : Server) ctx response action rest r name :
  index action "action" = VString name → strempty name = false →
  tools s !! name = None →
  actions s ctx response (action :: rest) r
  = (Some (with_error response
             (mcp.NewError (-32601) ("unknown action: " +:+ name))), r).
Proof.
  intros Hname Hempty Hnone. simpl. rewrite Hname. simpl.
  rewrite Hempty, Hnone. by destruct (assert_map (index action "parameters")).
Qed.

(** C7, as the code has it. For every non-empty tool name with no entry
    in the registry, [CallTool] answers with error code -32601 and no
    result, the same code and shape as the response of [ExecutePlan] when
    the plan reaches an action with that name (the actions before it
    having succeeded); [CallTool] leaves the execution state as it was
    and [ExecutePlan] journals the calls of the earlier actions only, so
    neither invokes a handler for the unknown name. The two messages
    begin "unknown tool: " and "unknown action: ". *)
Theorem unknown_tool_same_code_and_shape (s : Server) (name : string)
    (parameters : Map) (text : string) (pre post : list Map) (action : Map)
    (r : Run) (w1 : client.World) :
  strempty name = false →
  tools s !! name = None →
  json.Unmarshal text = inl (pre ++ action :: post) →
  index action "action" = VString name →
  succeed s (request_context r) pre (world r) = Some w1 →
  let call := CallTool s {| mcp.ToolName := name; mcp.Parameters := parameters |} r in
  let exec := ExecutePlan s (Some text) r in
  call = (error_reply (-32601) ("unknown tool: " +:+ name), r)
  ∧ exec = (error_reply (-32601) ("unknown action: " +:+ name),
            {| world := w1;
               invoked := invoked r ++ journal s (request_context r) pre |})
  ∧ shape call.1 = shape exec.1.
Proof.
  intros Hempty Hnone Hplan Hname Hpre call exec.
  assert (Hcall : call = (error_reply (-32601) ("unknown tool: " +:+ name), r)).
  { subst call. unfold CallTool. simpl. by rewrite Hnone. }
  assert (Hexec : exec = (error_reply (-32601) ("unknown action: " +:+ name),
            {| world := w1;
               invoked := invoked r ++ journal s (request_context r) pre |})).
  { subst exec. rewrite (ExecutePlan_decoded _ _ _ _ Hplan) by by destruct pre.
    rewrite (actions_succeed _ _ _ _ _ _ _ Hpre).
    by rewrite (actions_unknown _ _ _ _ _ _ _ Hname Hempty Hnone). }
  by rewrite Hcall, Hexec.
Qed.

Lemma unknown_tool_same_code_and_shape_witness :
  let s := NewServer willing in
  let r := start_at 0 in
  let call := CallTool s {| mcp.ToolName := "remove_container";
                            mcp.Parameters := Some [("name", VString "c1")] |} r in
  let exec := ExecutePlan s (Some unknown_text) r in
  call = (error_reply (-32601) ("unknown tool: " +:+ "remove_container"), r)
  ∧ exec = (error_reply (-32601) ("unknown action: " +:+ "remove_container"),
            {| world := {| client.now := 0;
                           client.calls :=
                             [client.NetworkCreate (request_context r) "net1"] |};
               invoked := invoked r ++ journal s (request_context r)
                                         [act "create_network" [("name", VString "net1")]] |})
  ∧ shape call.1 = shape exec.1.
Proof.
  intros s r.
  apply (unknown_tool_same_code_and_shape s "remove_container"
           (Some [("name", VString "c1")]) unknown_text
           [act "create_network" [("name", VString "net1")]] []
           (act "remove_container" [("name", VString "c1")]) r).
  - reflexivity.
  - vm_compute; reflexivity.
  - vm_compute; reflexivity.
  - reflexivity.
  - vm_compute; reflexivity.
Defined.

(** C7 as stated fails at the empty name, which the registry does not
    hold: [CallTool] reports it as an unknown tool (-32601) while
    [ExecutePlan] reports the action as malformed (-32602). *)
Lemma unknown_tool_empty_name_differs :
  let s := NewServer willing in
  let r := start_at 0 in
  tools s !! EmptyString = None
  ∧ (CallTool s {| mcp.ToolName := EmptyString; mcp.Parameters := None |} r).1
    = error_reply (-32601) "unknown tool: "
  ∧ (ExecutePlan s (Some unnamed_text) r).1
    = error_reply (-32602) "invalid action format"
  ∧ shape (CallTool s {| mcp.ToolName := EmptyString; mcp.Parameters := None |} r).1
    ≠ shape (ExecutePlan s (Some unnamed_text) r).1.
Proof.
  intros s r. split; [vm_compute; reflexivity|].
  split; [vm_compute; reflexivity|]. split; [vm_compute; reflexivity|].
  vm_compute. discriminate.
Qed.

(** *** Malformed parameter bags *)

Lemma last_binding_filter (k k' : string) (fields : list (string * Value))
    (found : option Value) :
  last_binding k' (filter (λ kv, kv.1 ≠ k) fields) found
  = if decide (k = k') then found else last_binding k' fields found.
Proof.
  revert found. induction fields as [|[k0 v] fields IH]; intros found.
  - simpl. by destruct (decide (k = k')).
  - rewrite filter_cons. simpl. destruct (decide (k0 ≠ k)) as [Hne|Heq].
    + simpl. rewrite IH. destruct (decide (k = k')) as [<-|Hne']; [|done].
      by destruct (String.eqb_spec k0 k).
    + apply dec_stable in Heq. subst k0. simpl. rewrite IH.
      destruct (decide (k = k')) as [->|Hne]; [done|].
      by destruct (String.eqb_spec k k').
Qed.

Lemma index_delete_key (k : string) (m : Map) : index (delete_key k m) k = VNil.
Proof.
  destruct m as [fields|]; [|done]. simpl.
  rewrite last_binding_filter. by rewrite decide_True.
Qed.

Lemma index_delete_key_ne (k k' : string) (m : Map) :
  k ≠ k' → index (delete_key k m) k' = index m k'.
Proof.
  intros Hne. destruct m as [fields|]; [|done]. simpl.
  rewrite last_binding_filter. by rewrite decide_False.
Qed.

(** Two actions with the same name and the same bag as the handler sees
    it take the loop through the same steps. *)
Lemma actions_same_head (s : Server) ctx response (a a' : Map) rest r :
  index a "action" = index a' "action" →
  (assert_map (index a "parameters")).1 = (assert_map (index a' "parameters")).1 →
  actions s ctx response (a :: rest) r = actions s ctx response (a' :: rest) r.
Proof.
  intros Hname Hbag. simpl. rewrite <- Hname.
  destruct (assert_string (index a "action")) as [actionType ok].
  destruct (negb ok || strempty actionType); [done|].
  destruct (assert_map (index a "parameters")) as [p1 ?].
  destruct (assert_map (index a' "parameters")) as [p2 ?].
  simpl in Hbag. by subst p2.
Qed.

Lemma actions_same_tail (s : Server) ctx response (pre l1 l2 : list Map) :
  (∀ r, actions s ctx response l1 r = actions s ctx response l2 r) →
  ∀ r, actions s ctx response (pre ++ l1) r = actions s ctx response (pre ++ l2) r.
Proof.
  intros Htail. induction pre as [|a pre IH]; intros r; [apply Htail|].
  simpl. destruct (assert_string (index a "action")) as [actionType ok].
  destruct (negb ok || strempty actionType); [done|].
  destruct (assert_map (index a "parameters")) as [parameters ?].
  destruct (tools s !! actionType) as [tool|]; [|done].
  destruct (invoke s tool ctx parameters r) as [[e|] r']; [done|]. apply IH.
Qed.

(** The loop only ever adds to the journal. *)
Lemma actions_extends (s : Server) ctx response (plan : list Map) r :
  ∃ later, invoked (actions s ctx response plan r).2 = invoked r ++ later.
Proof.
  revert r. induction plan as [|a plan IH]; intros r.
  - exists []. simpl. by rewrite app_nil_r.
  - simpl. destruct (assert_string (index a "action")) as [actionType ok].
    destruct (negb ok || strempty actionType).
    { exists []. simpl. by rewrite app_nil_r. }
    destruct (assert_map (index a "parameters")) as [parameters ?].
    destruct (tools s !! actionType) as [tool|].
    + unfold invoke.
      destruct (Handler tool ctx (dockerClient s) parameters (world r)) as [[e|] w].
      * by eexists [_].
      * destruct (IH {| world := w;
                        invoked := invoked r ++ [{| inv_tool := tool; inv_ctx := ctx;
                                                    inv_params := parameters |}] |})
          as [later ->].
        eexists (_ :: later). simpl. by rewrite <- app_assoc.
    + exists []. simpl. by rewrite app_nil_r.
Qed.

(** C10. An action whose "parameters" value is not a JSON object is not
    reported as malformed: the plan runs exactly as the plan in which the
    action has no "parameters" at all, and when the loop reaches the
    action its handler is called, once, with the nil bag. What the
    handler returns for the nil bag decides the outcome: if it fails, the
    response is error -32000 naming the tool with the handler's own
    error, and the world is the one the handler left; if it succeeds, the
    plan goes on with the remaining actions from that world. *)
Theorem malformed_parameters_as_absent (s : Server) (text text' : string)
    (pre post : list Map) (action : Map) (r : Run) :
  json.Unmarshal text = inl (pre ++ action :: post) →
  json.Unmarshal text' = inl (pre ++ delete_key "parameters" action :: post) →
  (assert_map (index action "parameters")).2 = false →
  ExecutePlan s (Some text) r = ExecutePlan s (Some text') r
  ∧ (∀ name tool parameters w1,
       resolve s action = Some (name, tool, parameters) →
       succeed s (request_context r) pre (world r) = Some w1 →
       parameters = None
       ∧ (∃ later,
           invoked (ExecutePlan s (Some text) r).2
           = invoked r ++ journal s (request_context r) pre
             ++ {| inv_tool := tool; inv_ctx := request_context r;
                   inv_params := None |} :: later)
       ∧ ExecutePlan s (Some text) r
         = let after w :=
             {| world := w;
                invoked := invoked r ++ journal s (request_context r) pre
                           ++ [{| inv_tool := tool; inv_ctx := request_context r;
                                  inv_params := None |}] |} in
           match Handler tool (request_context r) (dockerClient s) None w1 with
           | (Some e, w2) =>
               (error_reply (-32000)
                  ("failed to execute tool " +:+ name +:+ ": " +:+ e), after w2)
           | (None, w2) =>
               match actions s (request_context r)
                       {| mcp.Version := mcp.JSONRPCVersion; mcp.Result := None;
                          mcp.Error := None; mcp.ID := None |} post (after w2) with
               | (Some reply, r') => (reply, r')
               | (None, r') => (result_reply plan_success_payload, r')
               end
           end).
Proof.
  intros Hplan Hplan' Hbag.
  assert (Hnil : (assert_map (index action "parameters")).1 = None).
  { by destruct (index action "parameters"). }
  split.
  - rewrite (ExecutePlan_decoded _ _ _ _ Hplan) by by destruct pre.
    rewrite (ExecutePlan_decoded _ _ _ _ Hplan') by by destruct pre.
    rewrite (actions_same_tail s _ _ pre (action :: post)
               (delete_key "parameters" action :: post)); [done|].
    intros r0. apply actions_same_head.
    + by rewrite index_delete_key_ne.
    + by rewrite index_delete_key, Hnil.
  - intros name tool parameters w1 Hres Hpre.
    pose proof (resolve_inv _ _ _ _ _ Hres) as (_ & _ & _ & ->).
    split; [done|].
    rewrite (ExecutePlan_decoded _ _ _ _ Hplan) by by destruct pre.
    rewrite (actions_succeed _ _ _ _ _ _ _ Hpre).
    rewrite (actions_dispatch _ _ _ _ _ _ _ _ _ Hres). cbn [world invoked].
    rewrite Hnil. cbn zeta. rewrite <- !app_assoc.
    destruct (Handler tool _ (dockerClient s) None w1) as [[e|] w2].
    + split; [by eexists [] | done].
    + split; [|done].
      match goal with |- context [actions ?s0 ?c ?rsp post ?r0] =>
        destruct (actions_extends s0 c rsp post r0) as [later Hlater];
        destruct (actions s0 c rsp post r0) as [[reply|] r2]
      end; simpl in *; rewrite Hlater; exists later; by rewrite <- !app_assoc.
Qed.

Lemma malformed_parameters_as_absent_witness :
  let s := NewServer willing in
  let r := start_at 0 in
  let tool := {| Name := "create_volume"; Description := "Create a Docker volume";
                 InputSchema := object_schema
                                  [("name", string_property "Name of the volume")]
                                  ["name"];
                 Handler := create_volume_handler |} in
  ExecutePlan s (Some string_bag_text) r = ExecutePlan s (Some no_bag_text) r
  ∧ (∃ later,
      invoked (ExecutePlan s (Some string_bag_text) r).2
      = invoked r ++ journal s (request_context r) []
        ++ {| inv_tool := tool; inv_ctx := request_context r;
              inv_params := None |} :: later)
  ∧ ExecutePlan s (Some string_bag_text) r
    = (error_reply (-32000)
         ("failed to execute tool " +:+ "create_volume" +:+ ": "
          +:+ "invalid or missing volume name"),
       {| world := world r;
          invoked := invoked r ++ journal s (request_context r) []
                     ++ [{| inv_tool := tool; inv_ctx := request_context r;
                            inv_params := None |}] |}).
Proof.
  intros s r tool.
  destruct (malformed_parameters_as_absent s string_bag_text no_bag_text [] []
              (Some [("action", VString "create_volume");
                     ("parameters", VString "data")]) r)
    as [Hsame Hcall].
  - vm_compute; reflexivity.
  - vm_compute; reflexivity.
  - reflexivity.
  - split; [exact Hsame|].
    destruct (Hcall "create_volume" tool None (world r)) as (_ & Hjournal & Hout).
    + vm_compute; reflexivity.
    + reflexivity.
    + split; [exact Hjournal | exact Hout].
Defined.

(** Every handler of [NewServer] refuses the nil bag by its own check of
    the parameters it requires, before any call to the collaborator. *)
Lemma builtin_handlers_refuse_nil_bag (dc : client.Client) (name : string)
    (tool : RegisteredTool) :
  tools (NewServer dc) !! name = Some tool →
  ∃ e, ∀ ctx cli w, Handler tool ctx cli None w = (Some e, w).
Proof.
  unfold NewServer, RegisterTool; cbn [tools dockerClient].
  rewrite !lookup_insert. intros H.
  repeat case_decide; simplify_eq; try (by eexists; intros; reflexivity).
Qed.

(** *** The handlers *)

(** C3, as the code has it. Called with a non-empty string name, the
    run_container handler makes exactly one call to the collaborator, the
    start of that container under the context it was given, and returns
    the answer to it; the state of the container is not asked for, and
    what starting a running container does is the collaborator's affair. *)
Theorem run_container_starts_unconditionally (ctx : context.Context)
    (cli : client.Client) (parameters : Map) (name : string) (w : client.World) :
  index parameters "name" = VString name → strempty name = false →
  run_container_handler ctx cli parameters w
  = (client.answer cli w (client.ContainerStart ctx name),
     {| client.now := client.now w
                      + Z.of_N (client.elapsed cli w (client.ContainerStart ctx name));
        client.calls := client.calls w ++ [client.ContainerStart ctx name] |}).
Proof.
  intros Hname Hempty. unfold run_container_handler, docker.RunContainer.
  rewrite Hname. simpl. by rewrite Hempty.
Qed.

Lemma run_container_starts_unconditionally_witness :
  let ctx := request_context (start_at 0) in
  run_container_handler ctx willing (Some [("name", VString "c1")])
    (world (start_at 0))
  = (None,
     {| client.now := 0 + Z.of_N 0;
        client.calls := [] ++ [client.ContainerStart ctx "c1"] |}).
Proof.
  intros ctx.
  apply (run_container_starts_unconditionally ctx willing
           (Some [("name", VString "c1")]) "c1" (world (start_at 0)));
    reflexivity.
Defined.

(** C3 as stated fails: run twice for one container against a collaborator
    that starts it at the first call, the handler asks nothing about the
    container's state either time and starts it again the second time. *)
Lemma run_container_neither_queries_nor_skips :
  let ctx := request_context (start_at 0) in
  let bag := Some [("name", VString "c1")] in
  let first := run_container_handler ctx willing bag (world (start_at 0)) in
  let second := run_container_handler ctx willing bag first.2 in
  first.1 = None
  ∧ client.calls first.2 = [client.ContainerStart ctx "c1"]
  ∧ second.1 = None
  ∧ client.calls second.2
    = [client.ContainerStart ctx "c1"; client.ContainerStart ctx "c1"]
  ∧ existsb queries_state (client.calls second.2) = false.
Proof. repeat split. Qed.

(** C4, as the code has it. The create_container handler reads "name" and
    "image" and nothing else. When either is missing, not a string or
    empty it fails with "missing container name or image" and makes no
    call; otherwise it makes the one call that creates the container and
    returns its answer. What "volumes" and "networks" hold plays no part:
    two bags with the same name and image are treated alike. *)
Theorem create_container_reads_name_and_image (ctx : context.Context)
    (cli : client.Client) (parameters : Map) (w : client.World) :
  let name := (assert_string (index parameters "name")).1 in
  let image := (assert_string (index parameters "image")).1 in
  create_container_handler ctx cli parameters w
  = (if strempty name || strempty image
     then (Some "missing container name or image", w)
     else (client.answer cli w (client.ContainerCreate ctx image name),
           {| client.now := client.now w
                + Z.of_N (client.elapsed cli w (client.ContainerCreate ctx image name));
              client.calls := client.calls w
                              ++ [client.ContainerCreate ctx image name] |}))
  ∧ (∀ parameters',
       index parameters' "name" = index parameters "name" →
       index parameters' "image" = index parameters "image" →
       create_container_handler ctx cli parameters' w
       = create_container_handler ctx cli parameters w).
Proof.
  intros name image. split.
  - subst name image. unfold create_container_handler, docker.CreateContainer.
    destruct (assert_string (index parameters "name")) as [name ?].
    destruct (assert_string (index parameters "image")) as [image ?]. simpl.
    by destruct (strempty name || strempty image).
  - intros parameters' Hname Himage. unfold create_container_handler.
    by rewrite Hname, Himage.
Qed.

Lemma create_container_reads_name_and_image_witness :
  let ctx := request_context (start_at 0) in
  let plain := Some [("name", VString "c1"); ("image", VString "nginx:latest")] in
  create_container_handler ctx willing (Some [("name", VString "c1")])
    (world (start_at 0))
  = (Some "missing container name or image", world (start_at 0))
  ∧ create_container_handler ctx willing odd_lists_bag (world (start_at 0))
    = create_container_handler ctx willing plain (world (start_at 0)).
Proof.
  intros ctx plain. split.
  - apply (proj1 (create_container_reads_name_and_image ctx willing
                    (Some [("name", VString "c1")]) (world (start_at 0)))).
  - apply (proj2 (create_container_reads_name_and_image ctx willing plain
                    (world (start_at 0))) odd_lists_bag); reflexivity.
Defined.

(** C4 as stated fails: with a number in "volumes" and a boolean in
    "networks" the handler succeeds, and the collaborator is called to
    create the container. *)
Lemma create_container_ignores_odd_lists :
  let ctx := request_context (start_at 0) in
  create_container_handler ctx willing odd_lists_bag (world (start_at 0))
  = (None,
     {| client.now := 0;
        client.calls := [client.ContainerCreate ctx "nginx:latest" "c1"] |})
  ∧ index odd_lists_bag "volumes" = VSlice [VNumber "1"]
  ∧ index odd_lists_bag "networks" = VSlice [VBool true].
Proof. repeat split. Qed.

(** The test the handlers make on a parameter, [!ok || s == ""] after
    [s, ok := v.(string)], fails exactly on the usable values. *)
Lemma unusable (v : Value) :
  negb (assert_string v).2 || strempty (assert_string v).1 = negb (usable v).
Proof. destruct v as [| | |s| |]; try done. simpl. by destruct (strempty s). Qed.

(** C5. The pull_image handler resolves the reference it pulls as
    follows: a non-empty string "image" is used as it is; failing that, a
    non-empty string "name" gives name:tag, the tag being the non-empty
    string "tag" and latest when "tag" is absent (or not a non-empty
    string), so that a bag with the name redis alone gives redis:latest;
    with neither a usable image nor a usable name the handler fails with
    its own error and the world is untouched: the collaborator is not
    called. In the other cases the first call made is the pull of the
    resolved reference. *)
Theorem pull_image_reference (ctx : context.Context) (cli : client.Client)
    (parameters : Map) (w : client.World) :
  let image := index parameters "image" in
  let name := index parameters "name" in
  let tag := index parameters "tag" in
  let text v := (assert_string v).1 in
  docker.image_reference parameters
  = (if usable image then inl (text image)
     else if usable name
          then inl (text name +:+ ":" +:+ (if usable tag then text tag else "latest"))
          else inr "missing image name for pull_image")
  ∧ match docker.image_reference parameters with
    | inl ref =>
        ∃ more,
          client.calls (pull_image_handler ctx cli parameters w).2
          = client.calls w
            ++ client.ImagePull
                 (context.WithTimeout ctx (client.now w) (2 * time.Minute)) ref
               :: more
    | inr e => pull_image_handler ctx cli parameters w = (Some e, w)
    end
  ∧ docker.image_reference (Some [("name", VString "redis")]) = inl "redis:latest".
Proof.
  intros image name tag text. split; [|split; [|reflexivity]].
  - subst image name tag text. unfold docker.image_reference.
    pose proof (unusable (index parameters "image")) as Himage.
    pose proof (unusable (index parameters "name")) as Hname.
    pose proof (unusable (index parameters "tag")) as Htag.
    destruct (assert_string (index parameters "image")) as [image ?].
    destruct (assert_string (index parameters "name")) as [name ?].
    destruct (assert_string (index parameters "tag")) as [tag ?].
    simpl in *. rewrite Himage, Hname, Htag.
    destruct (usable (index parameters "image")); [done|].
    destruct (usable (index parameters "name")); [|done].
    by destruct (usable (index parameters "tag")).
  - unfold pull_image_handler, docker.PullImage.
    destruct (docker.image_reference parameters) as [ref|e]; [|done].
    unfold client.bind, client.clock, client.call. cbn.
    destruct (client.answer cli w _) as [e|]; cbn.
    + by eexists [].
    + eexists [_]. by rewrite <- app_assoc.
Qed.

(** *** Deadlines *)

Lemma request_context_deadline (r : Run) :
  request_context r
  = {| context.Deadline := Some (client.now (world r) + 30 * time.Second) |}.
Proof. reflexivity. Qed.

(** A derived context has the earlier of its parent's deadline and the
    one asked for. *)
Lemma WithTimeout_deadline (parent : context.Context) (D now timeout : Z) :
  context.Deadline parent = Some D →
  context.Deadline (context.WithTimeout parent now timeout)
  = Some (Z.min D (now + timeout)).
Proof.
  intros HD. unfold context.WithTimeout, context.WithDeadline. rewrite HD.
  destruct (Z.ltb_spec D (now + timeout)); simpl; [rewrite HD|]; f_equal; lia.
Qed.

(** Every handler call of one plan execution is made under the one
    context created before the loop. *)
Lemma actions_one_context (s : Server) ctx response (plan : list Map) r :
  ∃ later, invoked (actions s ctx response plan r).2 = invoked r ++ later
           ∧ Forall (λ i, inv_ctx i = ctx) later.
Proof.
  revert r. induction plan as [|a plan IH]; intros r.
  - exists []. simpl. by rewrite app_nil_r.
  - simpl. destruct (assert_string (index a "action")) as [actionType ok].
    destruct (negb ok || strempty actionType).
    { exists []. simpl. by rewrite app_nil_r. }
    destruct (assert_map (index a "parameters")) as [parameters ?].
    destruct (tools s !! actionType) as [tool|].
    + unfold invoke.
      destruct (Handler tool ctx (dockerClient s) parameters (world r)) as [[e|] w].
      * eexists [_]. split; [done|]. by repeat constructor.
      * destruct (IH {| world := w;
                        invoked := invoked r ++ [{| inv_tool := tool; inv_ctx := ctx;
                                                    inv_params := parameters |}] |})
          as (later & -> & Hall).
        eexists (_ :: later). simpl. rewrite <- app_assoc. split; [done|].
        by constructor.
    + exists []. simpl. by rewrite app_nil_r.
Qed.

Lemma ExecutePlan_one_context (s : Server) (args : option string) (r : Run) :
  ∃ later, invoked (ExecutePlan s args r).2 = invoked r ++ later
           ∧ Forall (λ i, inv_ctx i = request_context r) later.
Proof.
  assert (Hnone : ∃ later, invoked r = invoked r ++ later
                    ∧ Forall (λ i, inv_ctx i = request_context r) later).
  { exists []. by rewrite app_nil_r. }
  unfold ExecutePlan. destruct args as [text|]; [|done].
  destruct (strempty text); [done|].
  destruct (json.Unmarshal text) as [plan|err]; [|done].
  destruct (length plan =? 0)%nat; [done|].
  match goal with |- context [actions ?s0 ?c ?rsp plan r] =>
    destruct (actions_one_context s0 c rsp plan r) as (later & Hlater & Hall);
    destruct (actions s0 c rsp plan r) as [[reply|] r']
  end; simpl in *; by exists later.
Qed.

(** The pull is made under a context derived from the one the handler is
    given, so its deadline is never later than that one's. *)
Lemma PullImage_deadline (ctx : context.Context) (cli : client.Client)
    (parameters : Map) (w : client.World) (D : Z) (ref : string) :
  context.Deadline ctx = Some D →
  docker.image_reference parameters = inl ref →
  ∃ pullCtx more,
    client.calls (docker.PullImage ctx cli parameters w).2
    = client.calls w ++ client.ImagePull pullCtx ref :: more
    ∧ context.Deadline pullCtx = Some (Z.min D (client.now w + 2 * time.Minute)).
Proof.
  intros HD Href. unfold docker.PullImage. rewrite Href.
  unfold client.bind, client.clock, client.call. cbn.
  eexists _. destruct (client.answer cli w _) as [e|]; cbn.
  - eexists []. split; [done|]. by apply WithTimeout_deadline.
  - eexists [_]. rewrite <- app_assoc. split; [done|]. by apply WithTimeout_deadline.
Qed.

(** As long as the clock has not run backwards since the request began,
    the 2 minutes asked for lie beyond the request's 30 seconds, and the
    pull carries the request's own deadline. *)
Lemma PullImage_under_request_deadline (r : Run) (cli : client.Client)
    (parameters : Map) (w : client.World) (ref : string) :
  client.now (world r) ≤ client.now w →
  docker.image_reference parameters = inl ref →
  ∃ more,
    client.calls (docker.PullImage (request_context r) cli parameters w).2
    = client.calls w ++ client.ImagePull (request_context r) ref :: more.
Proof.
  intros Hclock Href.
  destruct (PullImage_deadline (request_context r) cli parameters w
              (client.now (world r) + 30 * time.Second) ref eq_refl Href)
    as ([d] & more & Hcalls & Hdeadline).
  exists more. rewrite Hcalls. do 3 f_equal. simpl in Hdeadline. subst d.
  rewrite request_context_deadline. do 2 f_equal.
  unfold time.Minute, time.Second. lia.
Qed.

(** C8. Each plan execution creates one context before the loop, with a
    deadline 30 seconds after the start; every handler call of the plan
    is made under it. The pull_image handler asks for a child context of
    2 minutes, but a child never outlives its parent: in the plan that
    pulls redis:latest, started at any time [t0] against any collaborator,
    the pull is the first call made and carries the deadline [t0] + 30
    seconds of the plan, which is earlier than [t0] + 2 minutes. *)
Theorem pull_runs_under_the_plan_deadline (dc : client.Client) (t0 : Z) :
  let plan_ctx := {| context.Deadline := Some (t0 + 30 * time.Second) |} in
  (∀ s args r, ∃ later,
       invoked (ExecutePlan s args r).2 = invoked r ++ later
       ∧ Forall (λ i, inv_ctx i = request_context r) later)
  ∧ request_context (start_at t0) = plan_ctx
  ∧ head (client.calls
            (world (ExecutePlan (NewServer dc) (Some pull_text) (start_at t0)).2))
    = Some (client.ImagePull plan_ctx "redis:latest")
  ∧ t0 + 30 * time.Second < t0 + 2 * time.Minute.
Proof.
  intros plan_ctx. split; [apply ExecutePlan_one_context|].
  split; [reflexivity|]. split; [|unfold time.Minute, time.Second; lia].
  assert (Hplan : json.Unmarshal pull_text = inl pull_plan)
    by (vm_compute; reflexivity).
  rewrite (ExecutePlan_decoded _ _ _ _ Hplan) by discriminate.
  assert (Hres : resolve (NewServer dc) (act "pull_image" [("image", VString "redis:latest")])
                 = Some ("pull_image",
                         {| Name := "pull_image"; Description := "Pull a Docker image";
                            InputSchema := object_schema
                              [("image", string_property "Combined image name (e.g. mysql:latest)");
                               ("name", string_property "Image name");
                               ("tag", string_property "Image tag")]
                              ["image"];
                            Handler := pull_image_handler |},
                         Some [("image", VString "redis:latest")]))
    by (vm_compute; reflexivity).
  unfold pull_plan. rewrite (actions_dispatch _ _ _ _ _ _ _ _ _ Hres).
  cbn [Handler pull_image_handler dockerClient NewServer RegisterTool world start_at].
  destruct (PullImage_deadline (request_context (start_at t0)) dc
              (Some [("image", VString "redis:latest")])
              {| client.now := t0; client.calls := [] |}
              (t0 + 30 * time.Second) "redis:latest" eq_refl eq_refl)
    as (pullCtx & more & Hcalls & Hdeadline).
  cbn [client.now client.calls app] in Hcalls, Hdeadline.
  assert (pullCtx = plan_ctx) as ->.
  { destruct pullCtx as [d]. simpl in Hdeadline. subst plan_ctx. f_equal.
    rewrite Hdeadline. f_equal. unfold time.Minute, time.Second. lia. }
  unfold pull_image_handler.
  destruct (docker.PullImage _ dc _ _) as [[e|] w]; simpl in *.
  - by rewrite Hcalls.
  - cbn zeta. simpl. by rewrite Hcalls.
Qed.

(** ** Further properties of the plan engine *)

Lemma actions_invalid (s : Server) ctx response action rest r :
  usable (index action "action") = false →
  actions s ctx response (action :: rest) r
  = (Some (with_error response (mcp.NewError (-32602) "invalid action format")), r).
Proof.
  intros Hbad. simpl. pose proof (unusable (index action "action")) as H.
  destruct (assert_string (index action "action")) as [actionType ok].
  simpl in H. by rewrite H, Hbad.
Qed.

(** X1. When the loop reaches an action whose "action" is missing, not a
    string or empty, the plan halts there with error -32602 "invalid
    action format": the earlier actions have run, each handler once, and
    nothing after the action is looked at. *)
Theorem ExecutePlan_invalid_action (s : Server) (text : string)
    (pre post : list Map) (action : Map) (r : Run) (w1 : client.World) :
  json.Unmarshal text = inl (pre ++ action :: post) →
  usable (index action "action") = false →
  succeed s (request_context r) pre (world r) = Some w1 →
  ExecutePlan s (Some text) r
  = (error_reply (-32602) "invalid action format",
     {| world := w1; invoked := invoked r ++ journal s (request_context r) pre |}).
Proof.
  intros Hplan Hbad Hpre.
  rewrite (ExecutePlan_decoded _ _ _ _ Hplan) by by destruct pre.
  rewrite (actions_succeed _ _ _ _ _ _ _ Hpre).
  by rewrite (actions_invalid _ _ _ _ _ _ Hbad).
Qed.

Lemma ExecutePlan_invalid_action_witness :
  let s := NewServer willing in
  let r := start_at 0 in
  ExecutePlan s
    (Some (json_text "[{'action':'create_network','parameters':{'name':'net1'}}, {'action':7}, {'action':'create_volume','parameters':{'name':'v'}}]")) r
  = (error_reply (-32602) "invalid action format",
     {| world := {| client.now := 0;
                    client.calls := [client.NetworkCreate (request_context r) "net1"] |};
        invoked := invoked r ++ journal s (request_context r)
                                  [act "create_network" [("name", VString "net1")]] |}).
Proof.
  intros s r.
  apply (ExecutePlan_invalid_action s _
           [act "create_network" [("name", VString "net1")]]
           [act "create_volume" [("name", VString "v")]]
           (Some [("action", VNumber "7")]) r).
  - vm_compute; reflexivity.
  - reflexivity.
  - vm_compute; reflexivity.
Defined.

(** Once the loop has returned, what follows in the plan plays no part. *)
Lemma actions_halt_suffix (s : Server) ctx response (plan post : list Map)
    r reply r' :
  actions s ctx response plan r = (Some reply, r') →
  actions s ctx response (plan ++ post) r = (Some reply, r').
Proof.
  revert r. induction plan as [|a plan IH]; intros r; [done|]. simpl.
  destruct (assert_string (index a "action")) as [actionType ok].
  destruct (negb ok || strempty actionType); [done|].
  destruct (assert_map (index a "parameters")) as [parameters ?].
  destruct (tools s !! actionType) as [tool|]; [|done].
  destruct (invoke s tool ctx parameters r) as [[e|] r1]; [done|]. apply IH.
Qed.

(** X2. Fail fast: if a plan ends in an error, any plan that continues it
    with further actions gives the same response and leaves the same
    state; the added actions are never dispatched. *)
Theorem ExecutePlan_ignores_the_rest (s : Server) (text text' : string)
    (plan post : list Map) (r : Run) :
  json.Unmarshal text = inl plan →
  json.Unmarshal text' = inl (plan ++ post) →
  plan ≠ [] →
  is_Some (mcp.Error (ExecutePlan s (Some text) r).1) →
  ExecutePlan s (Some text') r = ExecutePlan s (Some text) r.
Proof.
  intros Hplan Hplan' Hne.
  rewrite (ExecutePlan_decoded _ _ _ _ Hplan) by done.
  rewrite (ExecutePlan_decoded _ _ _ _ Hplan') by by destruct plan.
  destruct (actions s _ _ plan r) as [[reply|] r1] eqn:Hloop.
  - intros _. by rewrite (actions_halt_suffix _ _ _ _ _ _ _ _ Hloop).
  - simpl. by intros [? [=]].
Qed.

Lemma ExecutePlan_ignores_the_rest_witness :
  ExecutePlan (NewServer willing)
    (Some (json_text "[{'action':'create_container','parameters':{'name':'c1'}}, {'action':'run_container','parameters':{'name':'c1'}}]"))
    (start_at 0)
  = ExecutePlan (NewServer willing)
      (Some (json_text "[{'action':'create_container','parameters':{'name':'c1'}}]"))
      (start_at 0).
Proof.
  apply (ExecutePlan_ignores_the_rest (NewServer willing) _ _
           [act "create_container" [("name", VString "c1")]]
           [act "run_container" [("name", VString "c1")]] (start_at 0)).
  - vm_compute; reflexivity.
  - vm_compute; reflexivity.
  - discriminate.
  - vm_compute. by eexists.
Defined.

Lemma replay_app (s : Server) (l1 l2 : list Invocation) (w : client.World) :
  replay s (l1 ++ l2) w = replay s l2 (replay s l1 w).
Proof. apply foldl_app. Qed.

(** The loop changes the world through the handlers it journals and in
    no other way, calls registered handlers only, and calls at most one
    per action. *)
Lemma actions_replay (s : Server) ctx response (plan : list Map) r :
  ∃ later,
    invoked (actions s ctx response plan r).2 = invoked r ++ later
    ∧ world (actions s ctx response plan r).2 = replay s later (world r)
    ∧ (length later ≤ length plan)%nat
    ∧ Forall (λ i, ∃ k, tools s !! k = Some (inv_tool i)) later.
Proof.
  revert r. induction plan as [|a plan IH]; intros r.
  - exists []. simpl. by rewrite app_nil_r.
  - simpl. destruct (assert_string (index a "action")) as [actionType ok].
    destruct (negb ok || strempty actionType).
    { exists []. simpl. rewrite app_nil_r. repeat split; [lia | constructor]. }
    destruct (assert_map (index a "parameters")) as [parameters ?].
    destruct (tools s !! actionType) as [tool|] eqn:Htool.
    + unfold invoke.
      destruct (Handler tool ctx (dockerClient s) parameters (world r))
        as [[e|] w] eqn:Hrun.
      * exists [{| inv_tool := tool; inv_ctx := ctx; inv_params := parameters |}].
        simpl. rewrite Hrun. repeat split; [lia|].
        constructor; [by exists actionType | constructor].
      * destruct (IH {| world := w;
                        invoked := invoked r ++ [{| inv_tool := tool; inv_ctx := ctx;
                                                    inv_params := parameters |}] |})
          as (later & Hj & Hw & Hlen & Hreg).
        exists ({| inv_tool := tool; inv_ctx := ctx; inv_params := parameters |}
                  :: later).
        rewrite Hj, Hw. simpl. rewrite Hrun, <- app_assoc.
        repeat split; [lia|]. constructor; [by exists actionType | done].
    + exists []. simpl. rewrite app_nil_r. repeat split; [lia | constructor].
Qed.

(** X3. Whatever the input, the state after [ExecutePlan] differs from
    the state before by a list of handler calls added to the journal, and
    the world is the one those calls produce when made in that order from
    the initial world: the engine has no effect of its own. Every handler
    called is one the registry holds, and a decoded plan of N actions
    causes at most N calls. *)
Theorem ExecutePlan_effects_are_the_journal (s : Server) (args : option string)
    (r : Run) :
  ∃ later,
    invoked (ExecutePlan s args r).2 = invoked r ++ later
    ∧ world (ExecutePlan s args r).2 = replay s later (world r)
    ∧ Forall (λ i, ∃ k, tools s !! k = Some (inv_tool i)) later
    ∧ (∀ text plan, args = Some text → json.Unmarshal text = inl plan →
       (length later ≤ length plan)%nat).
Proof.
  assert (Hnone : ∀ plan0 : list Map, ∃ later,
             invoked r = invoked r ++ later
             ∧ world r = replay s later (world r)
             ∧ Forall (λ i, ∃ k, tools s !! k = Some (inv_tool i)) later
             ∧ (length later ≤ length plan0)%nat).
  { intros plan0. exists []. rewrite app_nil_r. simpl. repeat split; [constructor | lia]. }
  unfold ExecutePlan. destruct args as [text|].
  2:{ destruct (Hnone []) as (later & ? & ? & ? & ?). exists later.
      repeat split; try done. }
  destruct (strempty text) eqn:Hempty.
  { destruct (Hnone []) as (later & ? & ? & ? & ?). exists later.
    repeat split; try done. intros text0 plan [= <-] Hplan.
    by rewrite (Unmarshal_not_empty _ _ Hplan) in Hempty. }
  destruct (json.Unmarshal text) as [plan|err] eqn:Hplan.
  2:{ destruct (Hnone []) as (later & ? & ? & ? & ?). exists later.
      repeat split; try done. intros text0 plan [= <-]. by rewrite Hplan. }
  destruct (length plan =? 0)%nat.
  { destruct (Hnone plan) as (later & ? & ? & ? & ?). exists later.
    repeat split; try done. intros text0 plan0 [= <-]. rewrite Hplan. by intros [= <-]. }
  match goal with |- context [actions ?s0 ?c ?rsp plan r] =>
    destruct (actions_replay s0 c rsp plan r) as (later & Hj & Hw & Hlen & Hreg);
    destruct (actions s0 c rsp plan r) as [[reply|] r']
  end; simpl in *; exists later; repeat split; try done;
    intros text0 plan0 [= <-]; rewrite Hplan; by intros [= <-].
Qed.

Lemma ExecutePlan_effects_are_the_journal_witness :
  let s := NewServer willing in
  let r := start_at 0 in
  ∃ later,
    invoked (ExecutePlan s (Some scenario_text) r).2 = invoked r ++ later
    ∧ world (ExecutePlan s (Some scenario_text) r).2 = replay s later (world r)
    ∧ (length later ≤ length scenario_plan)%nat.
Proof.
  intros s r.
  destruct (ExecutePlan_effects_are_the_journal s (Some scenario_text) r)
    as (later & Hj & Hw & _ & Hlen).
  exists later. split; [exact Hj|]. split; [exact Hw|].
  apply (Hlen scenario_text scenario_plan); [reflexivity | vm_compute; reflexivity].
Defined.

(** The codes the loop can return, and what each tells about the state:
    -32602 and -32601 are decided before the action's handler is looked
    for or found, -32000 after a handler ran. *)
Lemma actions_codes (s : Server) ctx (plan : list Map) r reply r' :
  actions s ctx {| mcp.Version := mcp.JSONRPCVersion; mcp.Result := None;
                   mcp.Error := None; mcp.ID := None |} plan r = (Some reply, r') →
  ∃ code msg, reply = error_reply code msg
    ∧ (code = -32602 ∨ code = -32601 ∨ code = -32000)
    ∧ (code = -32000 → invoked r' ≠ invoked r).
Proof.
  revert r. induction plan as [|a plan IH]; intros r; simpl; [done|].
  destruct (assert_string (index a "action")) as [actionType ok].
  destruct (negb ok || strempty actionType).
  { intros [= <- <-]. eexists _, _. split; [done|]. split; [by left | done]. }
  destruct (assert_map (index a "parameters")) as [parameters ?].
  destruct (tools s !! actionType) as [tool|].
  - unfold invoke.
    destruct (Handler tool ctx (dockerClient s) parameters (world r)) as [[e|] w].
    + intros [= <- <-]. eexists _, _. split; [done|]. split; [by right; right|].
      intros _. simpl. intros H. apply (f_equal length) in H.
      rewrite length_app in H. simpl in H. lia.
    + intros Hloop. destruct (IH _ Hloop) as (code & msg & -> & Hcode & Hran).
      exists code, msg. split; [done|]. split; [done|].
      intros Hc H.
      destruct (actions_extends s ctx
                  {| mcp.Version := mcp.JSONRPCVersion; mcp.Result := None;
                     mcp.Error := None; mcp.ID := None |} plan
                  {| world := w;
                     invoked := invoked r ++ [{| inv_tool := tool; inv_ctx := ctx;
                                                 inv_params := parameters |}] |})
        as [later Hlater].
      rewrite Hloop in Hlater. simpl in Hlater.
      rewrite H in Hlater. apply (f_equal length) in Hlater.
      rewrite !length_app in Hlater. simpl in Hlater. lia.
  - intros [= <- <-]. eexists _, _. split; [done|]. split; [by right; left | done].
Qed.

(** X4. The error codes of [ExecutePlan] classify what happened. An
    error has one of the four codes -32700, -32602, -32601, -32000; the
    code is -32700 exactly when the argument is a non-empty text that
    does not decode to a plan; with -32700 the state is as it was; and
    -32000 is returned only after at least one handler was called. *)
Theorem ExecutePlan_error_codes (s : Server) (args : option string) (r : Run)
    (e : mcp.RPCError) :
  mcp.Error (ExecutePlan s args r).1 = Some e →
  (mcp.Code e = -32700 ∨ mcp.Code e = -32602 ∨ mcp.Code e = -32601
   ∨ mcp.Code e = -32000)
  ∧ (mcp.Code e = -32700
     ↔ ∃ text err, args = Some text ∧ strempty text = false
                   ∧ json.Unmarshal text = inr err)
  ∧ (mcp.Code e = -32700 → (ExecutePlan s args r).2 = r)
  ∧ (mcp.Code e = -32000 → invoked (ExecutePlan s args r).2 ≠ invoked r).
Proof.
  unfold ExecutePlan. destruct args as [text|].
  2:{ simpl. intros [= <-]. simpl. split; [by right; left|].
      split; [|done]. split; [done|]. by intros (? & ? & [=] & _). }
  destruct (strempty text) eqn:Hempty.
  { simpl. intros [= <-]. simpl. split; [by right; left|].
    split; [|done]. split; [done|]. intros (? & ? & [= <-] & ? & _). congruence. }
  destruct (json.Unmarshal text) as [plan|err] eqn:Hplan.
  2:{ simpl. intros [= <-]. simpl. split; [by left|]. split; [|done].
      split; [|done]. intros _. by exists text, err. }
  assert (Hnot : ¬ ∃ text0 err, Some text = Some text0 ∧ strempty text0 = false
                                ∧ json.Unmarshal text0 = inr err).
  { intros (? & ? & [= <-] & _ & ?). congruence. }
  destruct (length plan =? 0)%nat.
  { simpl. intros [= <-]. simpl. split; [by right; left|].
    split; [|done]. split; [done|]. intros H. by destruct Hnot. }
  destruct (actions s _ _ plan r) as [[reply|] r'] eqn:Hloop; simpl.
  - destruct (actions_codes _ _ _ _ _ _ Hloop) as (code & msg & -> & Hcode & Hran).
    simpl. intros [= <-]. simpl. split; [tauto|]. split; [|split; [lia | done]].
    split; [lia|]. intros H. by destruct Hnot.
  - done.
Qed.

Lemma ExecutePlan_error_codes_witness :
  let reply := ExecutePlan (NewServer willing) (Some "{not json") (start_at 0) in
  (∃ text err, Some "{not json" = Some text ∧ strempty text = false
               ∧ json.Unmarshal text = inr err)
  ∧ reply.2 = start_at 0.
Proof.
  intros reply.
  destruct (ExecutePlan_error_codes (NewServer willing) (Some "{not json")
              (start_at 0)
              (mcp.NewError (-32700)
                 ("failed to parse plan JSON: " +:+ json.Error json.SyntaxError))
              eq_refl)
    as (_ & Hiff & Hstate & _).
  split; [apply Hiff; reflexivity | apply Hstate; reflexivity].
Defined.

(** X5. A direct tool call and a plan of one action are the same
    dispatch: for a registered tool, [CallTool] with the bag the action
    carries leaves the same state (the same journal entry under the same
    30-second context, the same world) as [ExecutePlan] on the plan of
    that single action, and returns the same error, if any; only the
    text of the confirmation differs. *)
Theorem CallTool_as_single_action_plan (s : Server) (text : string)
    (action : Map) (name : string) (tool : RegisteredTool) (r : Run) :
  json.Unmarshal text = inl [action] →
  index action "action" = VString name →
  strempty name = false →
  tools s !! name = Some tool →
  let call := CallTool s {| mcp.ToolName := name;
                            mcp.Parameters := (assert_map (index action "parameters")).1 |} r in
  let exec := ExecutePlan s (Some text) r in
  call.2 = exec.2
  ∧ mcp.Error call.1 = mcp.Error exec.1
  ∧ (mcp.Error call.1 = None →
     mcp.Result exec.1 = Some plan_success_payload
     ∧ mcp.Result call.1
       = Some (json.Marshal [("status", "success");
                             ("message", "Tool " +:+ name +:+ " executed successfully")]).1).
Proof.
  intros Hplan Hname Hempty Htool call exec. subst call exec.
  rewrite (ExecutePlan_decoded _ _ _ _ Hplan) by done.
  assert (Hres : resolve s action
                 = Some (name, tool, (assert_map (index action "parameters")).1)).
  { unfold resolve. rewrite Hname. simpl. by rewrite Hempty, Htool. }
  rewrite (actions_dispatch _ _ _ _ _ _ _ _ _ Hres).
  unfold CallTool, invoke. simpl. rewrite Htool.
  fold (request_context r).
  by destruct (Handler tool (request_context r) (dockerClient s) _ (world r))
    as [[e|] w].
Qed.

Lemma CallTool_as_single_action_plan_witness :
  let s := NewServer willing in
  let r := start_at 0 in
  let call := CallTool s {| mcp.ToolName := "create_volume";
                            mcp.Parameters := None |} r in
  let exec := ExecutePlan s (Some no_bag_text) r in
  call.2 = exec.2 ∧ mcp.Error call.1 = mcp.Error exec.1.
Proof.
  intros s r.
  destruct (CallTool_as_single_action_plan s no_bag_text
              (Some [("action", VString "create_volume")]) "create_volume"
              {| Name := "create_volume"; Description := "Create a Docker volume";
                 InputSchema := object_schema
                                  [("name", string_property "Name of the volume")]
                                  ["name"];
                 Handler := create_volume_handler |} r)
    as (Hstate & Herror & _).
  - vm_compute; reflexivity.
  - reflexivity.
  - reflexivity.
  - vm_compute; reflexivity.
  - split; [exact Hstate | exact Herror].
Defined.

(** ** Further properties of the registry and the handlers *)

(** X6. Every entry of a registry built with [RegisterTool] sits under
    its own name: registering keeps that invariant, and the registry of
    [NewServer] satisfies it, holds the five tools create_network,
    create_container, create_volume, run_container and pull_image and no
    other, and keeps the Docker client it was given. *)
Theorem registry_is_well_keyed (dc : client.Client) :
  (∀ s name description schema handler,
     well_keyed s → well_keyed (RegisterTool s name description schema handler))
  ∧ well_keyed (NewServer dc)
  ∧ dom (tools (NewServer dc))
    = ({["create_network"; "create_container"; "create_volume";
         "run_container"; "pull_image"]} : gset string)
  ∧ dockerClient (NewServer dc) = dc.
Proof.
  assert (Hkeep : ∀ s name description schema handler,
            well_keyed s → well_keyed (RegisterTool s name description schema handler)).
  { intros s name description schema handler Hs k t. unfold RegisterTool; simpl.
    rewrite lookup_insert. case_decide; [by intros [= <-]; subst | apply Hs]. }
  split; [exact Hkeep|]. split; [|split; [|reflexivity]].
  - unfold NewServer. repeat apply Hkeep. intros k t. simpl.
    by rewrite lookup_empty.
  - unfold NewServer, RegisterTool; simpl.
    rewrite !dom_insert_L, dom_empty_L. set_solver.
Qed.

Lemma registry_is_well_keyed_witness :
  well_keyed (RegisterTool (NewServer willing) "remove_volume" "Remove a volume" []
                create_volume_handler).
Proof.
  apply (proj1 (registry_is_well_keyed willing)).
  apply (proj1 (proj2 (registry_is_well_keyed willing))).
Defined.

(** X7. Registrations under different names do not interfere: made in
    either order they build the same server. *)
Theorem RegisterTool_commutes (s : Server) (n1 d1 n2 d2 : string)
    (sch1 sch2 : list (string * Schema)) (h1 h2 : ToolHandler) :
  n1 ≠ n2 →
  RegisterTool (RegisterTool s n1 d1 sch1 h1) n2 d2 sch2 h2
  = RegisterTool (RegisterTool s n2 d2 sch2 h2) n1 d1 sch1 h1.
Proof.
  intros Hne. unfold RegisterTool; simpl. f_equal. by apply insert_insert_ne.
Qed.

Lemma RegisterTool_commutes_witness :
  RegisterTool (RegisterTool (NewServer willing) "a" "first" [] run_container_handler)
    "b" "second" [] create_volume_handler
  = RegisterTool (RegisterTool (NewServer willing) "b" "second" [] create_volume_handler)
      "a" "first" [] run_container_handler.
Proof. apply RegisterTool_commutes. discriminate. Defined.

(** The tools of [NewServer], by name. *)
Lemma NewServer_lookup (dc : client.Client) (k : string) (tool : RegisteredTool) :
  tools (NewServer dc) !! k = Some tool →
  (k = "create_network" ∧ Handler tool = create_network_handler)
  ∨ (k = "create_container" ∧ Handler tool = create_container_handler)
  ∨ (k = "create_volume" ∧ Handler tool = create_volume_handler)
  ∨ (k = "run_container" ∧ Handler tool = run_container_handler)
  ∨ (k = "pull_image" ∧ Handler tool = pull_image_handler).
Proof.
  unfold NewServer, RegisterTool; cbn [tools dockerClient].
  rewrite !lookup_insert. intros H.
  repeat case_decide; simplify_eq; simpl; tauto.
Qed.

(** What one call does to the world. *)
Lemma call_world (cli : client.Client) (c : client.Call) (w : client.World) :
  client.calls (client.call cli c w).2 = client.calls w ++ [c]
  ∧ client.now w ≤ client.now (client.call cli c w).2.
Proof. unfold client.call; simpl. split; [done | lia]. Qed.

Lemma PullImage_world (ctx : context.Context) (cli : client.Client)
    (parameters : Map) (w : client.World) :
  match docker.image_reference parameters with
  | inr e => docker.PullImage ctx cli parameters w = (Some e, w)
  | inl ref =>
      let pull := client.ImagePull
                    (context.WithTimeout ctx (client.now w) (2 * time.Minute)) ref in
      client.now w ≤ client.now (docker.PullImage ctx cli parameters w).2
      ∧ (client.calls (docker.PullImage ctx cli parameters w).2
         = client.calls w ++ [pull]
         ∨ client.calls (docker.PullImage ctx cli parameters w).2
           = client.calls w ++ [pull; client.PullOutputRead ref])
  end.
Proof.
  unfold docker.PullImage.
  destruct (docker.image_reference parameters) as [ref|e]; [|done].
  unfold client.bind, client.clock, client.call. cbn.
  destruct (client.answer cli w _) as [e|]; cbn.
  - split; [lia | by left].
  - split; [lia | right; by rewrite <- app_assoc].
Qed.

(** The test [name == ""] a handler makes after [name, _ := v.(string)]
    holds exactly when [v] is not a usable string. *)
Lemma name_test (v : Value) : strempty (assert_string v).1 = negb (usable v).
Proof. destruct v as [| | |s| |]; try done. simpl. by destruct (strempty s). Qed.

(** X8. What a handler of [NewServer] can do to the world: it adds at
    most two calls to the history of the collaborator (only pull_image
    more than one), never removes or reorders earlier ones, and never
    moves the clock back. A handler that adds no call has failed and
    left the world exactly as it was. For the four tools other than
    pull_image, a "name" that is missing, not a string or empty is
    refused before any call. *)
Theorem builtin_handler_footprint (dc cli : client.Client) (k : string)
    (tool : RegisteredTool) (ctx : context.Context) (parameters : Map)
    (w : client.World) :
  tools (NewServer dc) !! k = Some tool →
  let res := Handler tool ctx cli parameters w in
  ∃ added,
    client.calls res.2 = client.calls w ++ added
    ∧ (length added ≤ 2)%nat
    ∧ (k ≠ "pull_image" → (length added ≤ 1)%nat)
    ∧ client.now w ≤ client.now res.2
    ∧ (added = [] → res.2 = w ∧ is_Some res.1)
    ∧ (k ≠ "pull_image" → usable (index parameters "name") = false → added = []).
Proof.
  intros Hk res. subst res.
  pose proof (name_test (index parameters "name")) as Hname.
  assert (Hnil : ∀ e : string,
            ∃ added : list client.Call,
              client.calls w = client.calls w ++ added
              ∧ (length added ≤ 2)%nat
              ∧ (k ≠ "pull_image" → (length added ≤ 1)%nat)
              ∧ client.now w ≤ client.now w
              ∧ (added = [] → w = w ∧ is_Some (Some e))
              ∧ (k ≠ "pull_image" → usable (index parameters "name") = false
                 → added = [])).
  { intros e. exists []. rewrite app_nil_r. simpl.
    repeat split; try done; try lia. }
  assert (Hone : ∀ c : client.Call,
            usable (index parameters "name") = true →
            ∃ added : list client.Call,
              client.calls (client.call cli c w).2 = client.calls w ++ added
              ∧ (length added ≤ 2)%nat
              ∧ (k ≠ "pull_image" → (length added ≤ 1)%nat)
              ∧ client.now w ≤ client.now (client.call cli c w).2
              ∧ (added = [] → (client.call cli c w).2 = w
                              ∧ is_Some (client.call cli c w).1)
              ∧ (k ≠ "pull_image" → usable (index parameters "name") = false
                 → added = [])).
  { intros c Hu. exists [c]. destruct (call_world cli c w).
    repeat split; try done; try (simpl; lia). intros _. by rewrite Hu. }
  destruct (NewServer_lookup _ _ _ Hk) as [[-> ->]|[[-> ->]|[[-> ->]|[[-> ->]|[-> ->]]]]].
  - unfold create_network_handler, docker.CreateNetwork.
    destruct (assert_string (index parameters "name")) as [name ok].
    simpl in Hname. destruct (strempty name); [apply Hnil|].
    apply Hone. by destruct (usable (index parameters "name")).
  - unfold create_container_handler, docker.CreateContainer.
    destruct (assert_string (index parameters "name")) as [name ok].
    destruct (assert_string (index parameters "image")) as [image ok'].
    simpl in Hname. destruct (strempty name); simpl; [apply Hnil|].
    destruct (strempty image); [apply Hnil|].
    apply Hone. by destruct (usable (index parameters "name")).
  - unfold create_volume_handler, docker.CreateVolume.
    destruct (assert_string (index parameters "name")) as [name ok].
    simpl in Hname. destruct (strempty name); [apply Hnil|].
    apply Hone. by destruct (usable (index parameters "name")).
  - unfold run_container_handler, docker.RunContainer.
    destruct (assert_string (index parameters "name")) as [name ok].
    simpl in Hname. destruct (strempty name); [apply Hnil|].
    apply Hone. by destruct (usable (index parameters "name")).
  - unfold pull_image_handler.
    pose proof (PullImage_world ctx cli parameters w) as Hpull.
    destruct (docker.image_reference parameters) as [ref|e].
    + destruct Hpull as [Hclock [Hcalls|Hcalls]]; eexists; (split; [exact Hcalls|]);
        (repeat split; try done; simpl; lia).
    + rewrite Hpull. apply Hnil.
Qed.

Lemma builtin_handler_footprint_witness :
  let res := Handler {| Name := "run_container";
                        Description := "Run (start) a Docker container";
                        InputSchema := object_schema
                          [("name", string_property "Name of the container")]
                          ["name"];
                        Handler := run_container_handler |}
               context.Background refusing (Some [("name", VNumber "1")])
               (world (start_at 0)) in
  ∃ added,
    client.calls res.2 = client.calls (world (start_at 0)) ++ added
    ∧ added = [].
Proof.
  intros res.
  destruct (builtin_handler_footprint willing refusing "run_container"
              {| Name := "run_container";
                 Description := "Run (start) a Docker container";
                 InputSchema := object_schema
                   [("name", string_property "Name of the container")]
                   ["name"];
                 Handler := run_container_handler |}
              context.Background (Some [("name", VNumber "1")])
              (world (start_at 0)))
    as (added & Hcalls & _ & _ & _ & _ & Hrefused).
  - vm_compute; reflexivity.
  - exists added. split; [exact Hcalls|]. apply Hrefused; [discriminate | reflexivity].
Defined.

(** ** Deadlines, for every plan *)

(** Two minutes from any moment not before the start of the request lie
    beyond the request's 30 seconds: the derived context is the request's. *)
Lemma pull_context (r : Run) (t : Z) :
  client.now (world r) ≤ t →
  context.WithTimeout (request_context r) t (2 * time.Minute) = request_context r.
Proof.
  intros Ht. unfold request_context, context.WithTimeout, context.WithDeadline.
  simpl. destruct (Z.ltb_spec (client.now (world r) + 30 * time.Second)
                     (t + 2 * time.Minute)) as [|Hge]; [done|].
  unfold time.Minute, time.Second in Hge. lia.
Qed.

Lemma builtin_handler_deadline (dc cli : client.Client) (k : string)
    (tool : RegisteredTool) (r : Run) (parameters : Map) (w : client.World) :
  tools (NewServer dc) !! k = Some tool →
  client.now (world r) ≤ client.now w →
  ∃ added,
    client.calls (Handler tool (request_context r) cli parameters w).2
    = client.calls w ++ added
    ∧ Forall (under (request_context r)) added
    ∧ client.now w ≤ client.now (Handler tool (request_context r) cli parameters w).2.
Proof.
  intros Hk Hclock.
  assert (Hnil : ∃ added, client.calls w = client.calls w ++ added
                   ∧ Forall (under (request_context r)) added
                   ∧ client.now w ≤ client.now w).
  { exists []. rewrite app_nil_r. repeat split; [constructor | lia]. }
  assert (Hone : ∀ c, under (request_context r) c →
            ∃ added, client.calls (client.call cli c w).2 = client.calls w ++ added
                     ∧ Forall (under (request_context r)) added
                     ∧ client.now w ≤ client.now (client.call cli c w).2).
  { intros c Hc. exists [c]. destruct (call_world cli c w).
    repeat split; try done. by repeat constructor. }
  destruct (NewServer_lookup _ _ _ Hk) as [[-> ->]|[[-> ->]|[[-> ->]|[[-> ->]|[-> ->]]]]].
  - unfold create_network_handler, docker.CreateNetwork.
    destruct (assert_string (index parameters "name")) as [name ok].
    destruct (strempty name); [apply Hnil|]. apply Hone. by intros ? [= <-].
  - unfold create_container_handler, docker.CreateContainer.
    destruct (assert_string (index parameters "name")) as [name ok].
    destruct (assert_string (index parameters "image")) as [image ok'].
    destruct (strempty name || strempty image); [apply Hnil|].
    apply Hone. by intros ? [= <-].
  - unfold create_volume_handler, docker.CreateVolume.
    destruct (assert_string (index parameters "name")) as [name ok].
    destruct (strempty name); [apply Hnil|]. apply Hone. by intros ? [= <-].
  - unfold run_container_handler, docker.RunContainer.
    destruct (assert_string (index parameters "name")) as [name ok].
    destruct (strempty name); [apply Hnil|]. apply Hone. by intros ? [= <-].
  - unfold pull_image_handler.
    pose proof (PullImage_world (request_context r) cli parameters w) as Hpull.
    destruct (docker.image_reference parameters) as [ref|e].
    + rewrite (pull_context r _ Hclock) in Hpull.
      destruct Hpull as [Hnow [Hcalls|Hcalls]]; eexists; (split; [exact Hcalls|]);
        (split; [|done]); repeat constructor; by intros ? [= <-].
    + rewrite Hpull. apply Hnil.
Qed.

Lemma actions_deadline (s : Server) (r0 : Run) response (plan : list Map) (r : Run) :
  (∀ k tool parameters w,
     tools s !! k = Some tool → client.now (world r0) ≤ client.now w →
     ∃ added,
       client.calls (Handler tool (request_context r0) (dockerClient s) parameters w).2
       = client.calls w ++ added
       ∧ Forall (under (request_context r0)) added
       ∧ client.now w
         ≤ client.now (Handler tool (request_context r0) (dockerClient s)
                         parameters w).2) →
  client.now (world r0) ≤ client.now (world r) →
  ∃ added,
    client.calls (world (actions s (request_context r0) response plan r).2)
    = client.calls (world r) ++ added
    ∧ Forall (under (request_context r0)) added
    ∧ client.now (world r)
      ≤ client.now (world (actions s (request_context r0) response plan r).2).
Proof.
  intros Hhandlers. revert r. induction plan as [|a plan IH]; intros r Hclock.
  - exists []. simpl. rewrite app_nil_r. repeat split; [constructor | lia].
  - assert (Hnil : ∃ added, client.calls (world r) = client.calls (world r) ++ added
                     ∧ Forall (under (request_context r0)) added
                     ∧ client.now (world r) ≤ client.now (world r)).
    { exists []. rewrite app_nil_r. repeat split; [constructor | lia]. }
    simpl. destruct (assert_string (index a "action")) as [actionType ok].
    destruct (negb ok || strempty actionType); [apply Hnil|].
    destruct (assert_map (index a "parameters")) as [parameters ?].
    destruct (tools s !! actionType) as [tool|] eqn:Htool; [|apply Hnil].
    unfold invoke.
    destruct (Hhandlers actionType tool parameters (world r) Htool Hclock)
      as (added & Hcalls & Hall & Hnow).
    destruct (Handler tool (request_context r0) (dockerClient s) parameters (world r))
      as [[e|] w]; simpl in *.
    + by exists added.
    + destruct (IH {| world := w;
                      invoked := invoked r ++ [{| inv_tool := tool;
                                                  inv_ctx := request_context r0;
                                                  inv_params := parameters |}] |})
        as (added' & Hcalls' & Hall' & Hnow'); [simpl; lia|].
      simpl in *. exists (added ++ added'). rewrite Hcalls', Hcalls, <- app_assoc.
      repeat split; [by apply Forall_app | lia].
Qed.

(** X9. The server of [NewServer] makes every call to the collaborator
    under the one context of the request: in any execution of
    [ExecutePlan], whatever the plan and however the collaborator
    answers, each call that carries a context carries the request's,
    whose deadline is 30 seconds after the start. This holds for the
    pull of an image as well, at any position in the plan; calls are only
    added to the history and the clock is never moved back. *)
Theorem NewServer_calls_under_the_request_deadline (dc : client.Client)
    (args : option string) (r : Run) :
  ∃ added,
    client.calls (world (ExecutePlan (NewServer dc) args r).2)
    = client.calls (world r) ++ added
    ∧ Forall (λ c, ∀ ctx, call_context c = Some ctx →
                   context.Deadline ctx
                   = Some (client.now (world r) + 30 * time.Second)) added
    ∧ client.now (world r) ≤ client.now (world (ExecutePlan (NewServer dc) args r).2).
Proof.
  assert (Hunder : ∀ added, Forall (under (request_context r)) added →
            Forall (λ c, ∀ ctx, call_context c = Some ctx →
                         context.Deadline ctx
                         = Some (client.now (world r) + 30 * time.Second)) added).
  { intros added Hall. eapply Forall_impl; [exact Hall|].
    intros c Hc ctx Hctx. by rewrite (Hc _ Hctx). }
  assert (Hnil : ∃ added, client.calls (world r) = client.calls (world r) ++ added
                   ∧ Forall (λ c, ∀ ctx, call_context c = Some ctx →
                                  context.Deadline ctx
                                  = Some (client.now (world r) + 30 * time.Second)) added
                   ∧ client.now (world r) ≤ client.now (world r)).
  { exists []. rewrite app_nil_r. repeat split; [constructor | lia]. }
  unfold ExecutePlan. destruct args as [text|]; [|apply Hnil].
  destruct (strempty text); [apply Hnil|].
  destruct (json.Unmarshal text) as [plan|err]; [|apply Hnil].
  destruct (length plan =? 0)%nat; [apply Hnil|].
  fold (request_context r).
  match goal with |- context [actions ?s0 ?c ?rsp plan r] =>
    destruct (actions_deadline s0 r rsp plan r) as (added & Hcalls & Hall & Hnow);
      [intros k tool parameters w; apply builtin_handler_deadline | lia |];
    destruct (actions s0 c rsp plan r) as [[reply|] r']
  end; simpl in *; exists added; auto.
Qed.

Lemma NewServer_calls_under_the_request_deadline_witness :
  ∃ added,
    client.calls (world (ExecutePlan (NewServer slow)
                           (Some network_then_pull_text) (start_at 0)).2)
    = client.calls (world (start_at 0)) ++ added
    ∧ Forall (λ c, ∀ ctx, call_context c = Some ctx →
                   context.Deadline ctx
                   = Some (client.now (world (start_at 0)) + 30 * time.Second)) added.
Proof.
  destruct (NewServer_calls_under_the_request_deadline slow
              (Some network_then_pull_text) (start_at 0))
    as (added & Hcalls & Hall & _).
  exists added. split; [exact Hcalls | exact Hall].
Defined.

(** ** pkg/mcp: the text of an error *)

Lemma string_app_inv_head (p a b : string) : p +:+ a = p +:+ b → a = b.
Proof. induction p as [|c p IH]; simpl; [done|]. intros [= H]. by apply IH. Qed.

(** Two texts cut at the first occurrence of a character agree part by
    part. *)
Lemma split_at_char (c : ascii) (a1 a2 b1 b2 : string) :
  contains c a1 = false → contains c a2 = false →
  a1 +:+ String c b1 = a2 +:+ String c b2 → a1 = a2 ∧ b1 = b2.
Proof.
  revert a2. induction a1 as [|x a1 IH]; intros [|y a2]; simpl.
  - by intros _ _ [= ->].
  - intros _ [Hy _]%orb_false_elim [= <- _]. by rewrite Ascii.eqb_refl in Hy.
  - intros [Hx _]%orb_false_elim _ [= -> _]. by rewrite Ascii.eqb_refl in Hx.
  - intros [_ H1]%orb_false_elim [_ H2]%orb_false_elim [= -> H].
    destruct (IH _ H1 H2 H) as [-> ->]. done.
Qed.

Lemma string_of_uint_digits (c : ascii) (d : Decimal.uint) :
  (byte c <? 48)%N || (57 <? byte c)%N = true →
  contains c (NilEmpty.string_of_uint d) = false.
Proof.
  intros Hc. induction d as [|d IH|d IH|d IH|d IH|d IH|d IH|d IH|d IH|d IH|d IH];
    cbn [contains NilEmpty.string_of_uint]; [done|..]; rewrite IH, orb_false_r;
    match goal with
    | |- Ascii.eqb ?x c = false =>
        destruct (Ascii.eqb_spec x c) as [<-|]; [by vm_compute in Hc | done]
    end.
Qed.

Lemma itoa_no_bracket (n : Z) : contains "]" (itoa n) = false.
Proof.
  unfold itoa. destruct (Z.to_int n) as [d|d]; simpl.
  - by apply string_of_uint_digits.
  - by apply string_of_uint_digits.
Qed.

Lemma itoa_inj (n m : Z) : itoa n = itoa m → n = m.
Proof.
  unfold itoa. intros H. apply (f_equal NilEmpty.int_of_string) in H.
  rewrite !NilEmpty.isi in H. injection H as H.
  by rewrite <- (DecimalZ.of_to n), <- (DecimalZ.of_to m), H.
Qed.

(** X10. The text [String] gives for an error tells the error: it is
    "RPC Error [Code: ", the code in decimal, "]: " and the message, and
    two errors with the same text have the same code and the same
    message, whatever brackets and colons the messages hold. *)
Theorem RPCError_String_injective (e1 e2 : mcp.RPCError) :
  RPCError_String e1 = RPCError_String e2 → e1 = e2.
Proof.
  unfold RPCError_String. intros H%string_app_inv_head.
  destruct (split_at_char "]" (itoa (mcp.Code e1)) (itoa (mcp.Code e2))
              (": " +:+ mcp.Message e1) (": " +:+ mcp.Message e2))
    as [Hcode Hmsg]; try apply itoa_no_bracket.
  - exact H.
  - apply itoa_inj in Hcode. apply string_app_inv_head in Hmsg.
    destruct e1, e2; simpl in *; by subst.
Qed.

Lemma RPCError_String_injective_witness :
  RPCError_String (mcp.NewError (-32601) "unknown tool: [x]: y")
  = "RPC Error [Code: -32601]: unknown tool: [x]: y"
  ∧ mcp.NewError (-32601) "unknown tool: [x]: y"
    = {| mcp.Code := -32601; mcp.Message := "unknown tool: [x]: y" |}.
Proof.
  split; [reflexivity|].
  apply (RPCError_String_injective (mcp.NewError (-32601) "unknown tool: [x]: y")
           {| mcp.Code := -32601; mcp.Message := "unknown tool: [x]: y" |}).
  reflexivity.
Defined.

(** ** src/server/server.go *)

Lemma volumes_loop_strings (format : Value → string) (strs : list string)
    (rest : list Value) (volumes : list string) :
  server_go.volumes_loop format (map VString strs ++ rest) volumes
  = server_go.volumes_loop format rest (volumes ++ strs).
Proof.
  revert volumes. induction strs as [|x strs IH]; intros volumes; simpl.
  - by rewrite app_nil_r.
  - rewrite IH. by rewrite <- app_assoc.
Qed.

Lemma networks_loop_strings (format : Value → string) (strs : list string)
    (rest : list Value) (networks : list string) :
  server_go.networks_loop format (map VString strs ++ rest) networks
  = server_go.networks_loop format rest (networks ++ strs).
Proof.
  revert networks. induction strs as [|x strs IH]; intros networks; simpl.
  - by rewrite app_nil_r.
  - rewrite IH. by rewrite <- app_assoc.
Qed.

(** X11. [parseVolumes] and [parseNetworks] accept a list exactly when
    every element is a string, and then return the strings in their
    order; at the first element that is not a string they fail with an
    error that shows that element, whatever follows it. A value that is
    not a list (a missing key, a single string, an object) is not an
    error: the result is the empty list. *)
Theorem parse_lists (format : Value → string) (action : Map) :
  (∀ strs, index action "volumes" = VSlice (map VString strs) →
     server_go.parseVolumes format action = inl strs)
  ∧ (∀ strs v rest,
       index action "volumes" = VSlice (map VString strs ++ v :: rest) →
       (assert_string v).2 = false →
       server_go.parseVolumes format action
       = inr ("invalid volume format: " +:+ format v))
  ∧ ((assert_slice (index action "volumes")).2 = false →
     server_go.parseVolumes format action = inl [])
  ∧ (∀ strs, index action "networks" = VSlice (map VString strs) →
       server_go.parseNetworks format action = inl strs)
  ∧ (∀ strs v rest,
       index action "networks" = VSlice (map VString strs ++ v :: rest) →
       (assert_string v).2 = false →
       server_go.parseNetworks format action
       = inr ("invalid network format: " +:+ format v))
  ∧ ((assert_slice (index action "networks")).2 = false →
     server_go.parseNetworks format action = inl []).
Proof.
  unfold server_go.parseVolumes, server_go.parseNetworks. repeat split.
  - intros strs ->. simpl. rewrite <- (app_nil_r (map VString strs)).
    by rewrite volumes_loop_strings.
  - intros strs v rest -> Hv. simpl. rewrite volumes_loop_strings. simpl.
    destruct (assert_string v) as [? valid]. simpl in Hv. by subst valid.
  - by destruct (assert_slice (index action "volumes")) as [? []].
  - intros strs ->. simpl. rewrite <- (app_nil_r (map VString strs)).
    by rewrite networks_loop_strings.
  - intros strs v rest -> Hv. simpl. rewrite networks_loop_strings. simpl.
    destruct (assert_string v) as [? valid]. simpl in Hv. by subst valid.
  - by destruct (assert_slice (index action "networks")) as [? []].
Qed.

Lemma parse_lists_witness :
  let action := Some [("volumes", VSlice [VString "data:/data"; VNumber "1";
                                          VString "logs:/logs"]);
                      ("networks", VString "net1")] in
  server_go.parseVolumes sample_format action
  = inr ("invalid volume format: " +:+ sample_format (VNumber "1"))
  ∧ server_go.parseNetworks sample_format action = inl [].
Proof.
  intros action.
  destruct (parse_lists sample_format action) as (_ & Hbad & _ & _ & _ & Hnone).
  split.
  - apply (Hbad ["data:/data"] (VNumber "1") [VString "logs:/logs"]); reflexivity.
  - apply Hnone. reflexivity.
Defined.

(** The dispatch of [NewServer] on a name that is none of its five. *)
Lemma NewServer_lookup_other (dc : client.Client) (k : string) :
  k ≠ "create_network" → k ≠ "create_container" → k ≠ "create_volume" →
  k ≠ "run_container" → k ≠ "pull_image" →
  tools (NewServer dc) !! k = None.
Proof.
  intros. unfold NewServer, RegisterTool; cbn [tools].
  by rewrite !lookup_insert_ne, lookup_empty.
Qed.

(** Both loops have returned an error and left the same world, or both
    go on with the rest of the plan. *)
Ltac halted := simpl; split; [reflexivity | split; intros; discriminate].

Ltac continue_with IH Hplan :=
  match goal with
  | |- context [actions _ _ _ _ ?r1] => apply (IH r1 Hplan)
  end.

(** The two loops, the [switch] and the registry, side by side. *)
Lemma actions_agree (dc : client.Client) ctx response (plan : list Map) (r : Run) :
  without_pull plan →
  (server_go.actions dc ctx plan (world r)).2
  = world (actions (NewServer dc) ctx response plan r).2
  ∧ ((server_go.actions dc ctx plan (world r)).1 = None
     ↔ (actions (NewServer dc) ctx response plan r).1 = None).
Proof.
  revert r. induction plan as [|a plan IH]; intros r Hplan; [done|].
  apply Forall_cons in Hplan as [Ha Hplan].
  cbn [server_go.actions actions].
  pose proof (name_test (index a "action")) as Hname.
  destruct (assert_string (index a "action")) as [actionType ok] eqn:Hassert.
  destruct (negb ok || strempty actionType) eqn:Hbad; [halted|].
  assert (index a "action" = VString actionType) as Haction.
  { destruct (index a "action"); simpl in Hassert; simplify_eq; simpl in *; done. }
  destruct (assert_map (index a "parameters")) as [parameters ?].
  destruct (String.eqb_spec actionType "create_network") as [->|Hn1].
  { change (tools (NewServer dc) !! "create_network") with
      (Some {| Name := "create_network"; Description := "Create a Docker network";
               InputSchema := object_schema
                 [("name", string_property "Name of the network")] ["name"];
               Handler := create_network_handler |}).
    unfold invoke, create_network_handler, docker.CreateNetwork; cbn [Handler].
    change (dockerClient (NewServer dc)) with dc.
    destruct (assert_string (index parameters "name")) as [name ?].
    destruct (strempty name); [halted|]. unfold client.bind.
    destruct (client.call dc _ (world r)) as [[e|] w]; [halted|]. continue_with IH Hplan. }
  destruct (String.eqb_spec actionType "create_container") as [->|Hn2].
  { change (tools (NewServer dc) !! "create_container") with
      (Some {| Name := "create_container"; Description := "Create a Docker container";
               InputSchema := object_schema
                 [("name", string_property "Name of the container");
                  ("image", string_property "Docker image to use")]
                 ["name"; "image"];
               Handler := create_container_handler |}).
    unfold invoke, create_container_handler, docker.CreateContainer; cbn [Handler].
    change (dockerClient (NewServer dc)) with dc.
    destruct (assert_string (index parameters "name")) as [name ?].
    destruct (assert_string (index parameters "image")) as [image ?].
    destruct (strempty name || strempty image); [halted|]. unfold client.bind.
    destruct (client.call dc _ (world r)) as [[e|] w]; [halted|]. continue_with IH Hplan. }
  destruct (String.eqb_spec actionType "create_volume") as [->|Hn3].
  { change (tools (NewServer dc) !! "create_volume") with
      (Some {| Name := "create_volume"; Description := "Create a Docker volume";
               InputSchema := object_schema
                 [("name", string_property "Name of the volume")] ["name"];
               Handler := create_volume_handler |}).
    unfold invoke, create_volume_handler, docker.CreateVolume; cbn [Handler].
    change (dockerClient (NewServer dc)) with dc.
    destruct (assert_string (index parameters "name")) as [name ?].
    destruct (strempty name); [halted|]. unfold client.bind.
    destruct (client.call dc _ (world r)) as [[e|] w]; [halted|]. continue_with IH Hplan. }
  destruct (String.eqb_spec actionType "run_container") as [->|Hn4].
  { change (tools (NewServer dc) !! "run_container") with
      (Some {| Name := "run_container"; Description := "Run (start) a Docker container";
               InputSchema := object_schema
                 [("name", string_property "Name of the container")] ["name"];
               Handler := run_container_handler |}).
    unfold invoke, run_container_handler, docker.RunContainer; cbn [Handler].
    change (dockerClient (NewServer dc)) with dc.
    destruct (assert_string (index parameters "name")) as [name ?].
    destruct (strempty name); [halted|]. unfold client.bind.
    destruct (client.call dc _ (world r)) as [[e|] w]; [halted|]. continue_with IH Hplan. }
  rewrite NewServer_lookup_other by (try done; congruence). halted.
Qed.

(** X12. Moving the dispatch from the [switch] of server.go to the tool
    registry kept the behaviour of every plan that does not pull an
    image: on the same argument and from the same world, the two
    [ExecutePlan] make the same calls to the collaborator and leave the
    same world, and one reports an error (as the error of the method)
    exactly when the other does (in the response). *)
Theorem registry_refines_switch (dc : client.Client) (args : option string)
    (r : Run) :
  (∀ text plan, args = Some text → json.Unmarshal text = inl plan →
     without_pull plan) →
  (server_go.ExecutePlan dc args (world r)).2
  = world (ExecutePlan (NewServer dc) args r).2
  ∧ ((∃ reply, (server_go.ExecutePlan dc args (world r)).1 = inl reply)
     ↔ mcp.Error (ExecutePlan (NewServer dc) args r).1 = None).
Proof.
  intros Hplan. unfold server_go.ExecutePlan, ExecutePlan.
  assert (Hbad : ∀ (e : string) (code : Z) (msg : string),
            (client.ret (inr e : string + string) (world r)).2 = world r
            ∧ ((∃ reply, (client.ret (inr e : string + string) (world r)).1 = inl reply)
               ↔ mcp.Error (error_reply code msg) = None)).
  { intros e code msg. split; [done|]. simpl. split; [by intros [? [=]] | done]. }
  destruct args as [text|]; [|apply Hbad].
  destruct (strempty text); [apply Hbad|].
  destruct (json.Unmarshal text) as [plan|err] eqn:Hdecoded; [|apply Hbad].
  destruct (length plan =? 0)%nat; [apply Hbad|].
  specialize (Hplan text plan eq_refl Hdecoded).
  unfold client.bind, client.clock. cbn [fst snd].
  destruct (actions_agree dc
              (context.WithTimeout context.Background (client.now (world r))
                 (30 * time.Second))
              {| mcp.Version := mcp.JSONRPCVersion; mcp.Result := None;
                 mcp.Error := None; mcp.ID := None |} plan r Hplan)
    as [Hworld Herr].
  destruct (server_go.actions dc _ plan (world r)) as [[e|] w] eqn:Hold;
    destruct (actions (NewServer dc) _ _ plan r) as [[reply|] r'] eqn:Hnew;
    simpl in *.
  - apply actions_reply in Hnew as (code & msg & ->). split; [done|].
    split; [by intros [? [=]] | done].
  - destruct Herr as [_ Herr]. by specialize (Herr eq_refl).
  - destruct Herr as [Herr _]. by specialize (Herr eq_refl).
  - split; [done|]. split; [done | by eexists].
Qed.

Lemma registry_refines_switch_witness :
  (server_go.ExecutePlan willing (Some no_image_text) (world (start_at 0))).2
  = world (ExecutePlan (NewServer willing) (Some no_image_text) (start_at 0)).2
  ∧ ((∃ reply, (server_go.ExecutePlan willing (Some no_image_text)
                  (world (start_at 0))).1 = inl reply)
     ↔ mcp.Error (ExecutePlan (NewServer willing) (Some no_image_text)
                    (start_at 0)).1 = None).
Proof.
  apply (registry_refines_switch willing (Some no_image_text) (start_at 0)).
  intros text plan [= <-] Hplan.
  assert (Hdecoded : json.Unmarshal no_image_text = inl no_image_plan)
    by (vm_compute; reflexivity).
  rewrite Hdecoded in Hplan. injection Hplan as <-.
  repeat constructor; discriminate.
Defined.

(** ** The named handlers of the single-file registry server *)

(** X13. Moving the handlers into pkg/docker kept what they do. For
    every context, client, bag and world, the named handlers of the
    single-file server and the handlers [NewServer] registers return the
    same result for create_network, create_container and pull_image; for
    create_volume and run_container they leave the same world and fail
    in the same cases, and differ only in the wording of the error for a
    missing name. *)
Theorem handlers_moved_unchanged (ctx : context.Context) (cli : client.Client)
    (parameters : Map) (w : client.World) :
  standalone.createNetworkHandler ctx cli parameters w
  = create_network_handler ctx cli parameters w
  ∧ standalone.createContainerHandler ctx cli parameters w
    = create_container_handler ctx cli parameters w
  ∧ standalone.pullImageHandler ctx cli parameters w
    = pull_image_handler ctx cli parameters w
  ∧ (standalone.createVolumeHandler ctx cli parameters w
     = create_volume_handler ctx cli parameters w
     ∨ standalone.createVolumeHandler ctx cli parameters w
       = (Some "invalid or missing name for create_volume action", w)
       ∧ create_volume_handler ctx cli parameters w
         = (Some "invalid or missing volume name", w))
  ∧ (standalone.runContainerHandler ctx cli parameters w
     = run_container_handler ctx cli parameters w
     ∨ standalone.runContainerHandler ctx cli parameters w
       = (Some "invalid name for run_container", w)
       ∧ run_container_handler ctx cli parameters w
         = (Some "invalid container name", w)).
Proof.
  unfold standalone.createNetworkHandler, standalone.createContainerHandler,
    standalone.pullImageHandler, standalone.createVolumeHandler,
    standalone.runContainerHandler, create_network_handler,
    create_container_handler, pull_image_handler, create_volume_handler,
    run_container_handler, docker.CreateNetwork, docker.CreateContainer,
    docker.CreateVolume, docker.RunContainer, docker.PullImage,
    docker.image_reference.
  destruct (assert_string (index parameters "name")) as [name nameOk].
  destruct (assert_string (index parameters "image")) as [image ok].
  destruct (assert_string (index parameters "tag")) as [tag tagOk].
  split; [by destruct (strempty name)|].
  split; [by destruct (strempty name || strempty image)|].
  split; [done|].
  split; destruct (strempty name); by (left + right).
Qed.

(** ** Success, and dispatch after registration *)

Lemma actions_through_iff (s : Server) ctx response (plan : list Map) (r : Run) :
  (actions s ctx response plan r).1 = None
  ↔ is_Some (succeed s ctx plan (world r)).
Proof.
  revert r. induction plan as [|a plan IH]; intros r.
  - simpl. split; [by eexists | done].
  - cbn [succeed]. destruct (resolve s a) as [[[name tool] parameters]|] eqn:Hres.
    + rewrite (actions_dispatch _ _ _ _ _ _ _ _ _ Hres). cbn zeta.
      destruct (Handler tool ctx (dockerClient s) parameters (world r)) as [[e|] w].
      * simpl. split; [done | by intros [? [=]]].
      * apply IH.
    + split; [|by intros [? [=]]]. intros Hnone. exfalso. revert Hnone Hres.
      unfold resolve. simpl.
      destruct (assert_string (index a "action")) as [actionType ok].
      destruct (negb ok || strempty actionType); [done|].
      destruct (assert_map (index a "parameters")) as [parameters ?].
      by destruct (tools s !! actionType).
Qed.

(** X14. A decoded, non-empty plan succeeds exactly when every action is
    dispatched and every handler succeeds: the response of [ExecutePlan]
    has no error if and only if each action names a registered tool and
    each handler, run in turn on the world the previous one left,
    returns no error. *)
Theorem ExecutePlan_succeeds_iff (s : Server) (text : string) (plan : list Map)
    (r : Run) :
  json.Unmarshal text = inl plan → plan ≠ [] →
  mcp.Error (ExecutePlan s (Some text) r).1 = None
  ↔ is_Some (succeed s (request_context r) plan (world r)).
Proof.
  intros Hplan Hne. rewrite (ExecutePlan_decoded _ _ _ _ Hplan Hne).
  rewrite <- (actions_through_iff s (request_context r)
                {| mcp.Version := mcp.JSONRPCVersion; mcp.Result := None;
                   mcp.Error := None; mcp.ID := None |} plan r).
  destruct (actions s _ _ plan r) as [[reply|] r'] eqn:Hloop; simpl; [|done].
  apply actions_reply in Hloop as (code & msg & ->). done.
Qed.

Lemma ExecutePlan_succeeds_iff_witness :
  mcp.Error (ExecutePlan (NewServer refusing) (Some scenario_text) (start_at 0)).1
  = None
  ↔ is_Some (succeed (NewServer refusing) (request_context (start_at 0))
               scenario_plan (world (start_at 0))).
Proof.
  apply (ExecutePlan_succeeds_iff (NewServer refusing) scenario_text scenario_plan
           (start_at 0)).
  - vm_compute; reflexivity.
  - discriminate.
Defined.

(** X15. A tool is callable as soon as it is registered, and it is the
    handler registered last that runs: after [RegisterTool] under a name,
    [CallTool] for that name calls the given handler once, with the bag
    of the call and under a fresh 30-second context, whatever the
    registry held under the name before; the response carries an error
    exactly when the handler returns one. *)
Theorem registered_tool_is_called (s : Server) (name description : string)
    (schema : list (string * Schema)) (handler : ToolHandler)
    (parameters : Map) (r : Run) :
  let s' := RegisterTool s name description schema handler in
  let res := CallTool s' {| mcp.ToolName := name; mcp.Parameters := parameters |} r in
  let ran := handler (request_context r) (dockerClient s) parameters (world r) in
  world res.2 = ran.2
  ∧ invoked res.2
    = invoked r ++ [{| inv_tool := {| Name := name; Description := description;
                                      InputSchema := schema; Handler := handler |};
                       inv_ctx := request_context r; inv_params := parameters |}]
  ∧ (mcp.Error res.1 = None ↔ ran.1 = None)
  ∧ (∀ e, ran.1 = Some e →
       res.1 = error_reply (-32000)
                 ("failed to execute tool " +:+ name +:+ ": " +:+ e)).
Proof.
  intros s' res ran. subst s' res ran. unfold CallTool.
  cbn [mcp.ToolName mcp.Parameters]. rewrite RegisterTool_lookup.
  unfold invoke. cbn [Handler dockerClient RegisterTool].
  fold (request_context r).
  destruct (handler (request_context r) (dockerClient s) parameters (world r))
    as [[e|] w]; simpl.
  - repeat split; try done. by intros e' [= <-].
  - repeat split; done.
Qed.

Lemma registered_tool_is_called_witness :
  let s' := RegisterTool (NewServer refusing) "run_container" "start again" []
              create_volume_handler in
  (CallTool s' {| mcp.ToolName := "run_container";
                  mcp.Parameters := Some [("name", VString "v1")] |} (start_at 0)).1
  = error_reply (-32000)
      ("failed to execute tool " +:+ "run_container" +:+ ": " +:+ "daemon unreachable").
Proof.
  intros s'.
  destruct (registered_tool_is_called (NewServer refusing) "run_container"
              "start again" [] create_volume_handler
              (Some [("name", VString "v1")]) (start_at 0))
    as (_ & _ & _ & Hfail).
  apply Hfail. reflexivity.
Defined.
